(** * RoboGrammar, [examples/design_search/results.py]

    A shallow embedding of the result-export script: phenotype
    construction from a rule sequence ([make_robot_from_rule_sequence]),
    camera framing ([get_robot_image]) and the log sampling modes of
    [main], followed by the properties of the prose specification that
    were checked against them.

    The graph-rewriting engine ([rd.find_matches], [rd.apply_rule]), the
    simulator and viewer, and the data-frame sort are libraries the script
    calls; they appear as interfaces (type classes) that the script's code
    is written against. *)

From Stdlib Require Import ZArith List Bool String Lia Permutation Sorted.
From Stdlib Require Import Floats.SpecFloat.
From Stdlib Require Import Reals Lra.
Import ListNotations.
Open Scope Z_scope.

(* ===================================================================== *)
(** * Python values and control flow *)
(* ===================================================================== *)

Module Py.

(** The two exceptions the script's own indexing can raise: [IndexError]
    from a list subscript, [KeyError] from a label lookup in a pandas
    object. *)
Inductive exn : Type := IndexError | KeyError.

(** How evaluating an expression ends: with a value or with an exception
    that travels up (the script has no [try]). *)
Inductive completion (A : Type) : Type :=
| Normal (a : A)
| Raise (e : exn).
Arguments Normal {A} a.
Arguments Raise {A} e.

Class Monad (M : Type -> Type) : Type := {
  ret : forall {A : Type}, A -> M A;
  bind : forall {A B : Type}, M A -> (A -> M B) -> M B
}.

#[export] Instance completion_monad : Monad completion := {
  ret := fun A a => Normal a;
  bind := fun A B c k =>
    match c with
    | Normal a => k a
    | Raise e => Raise e
    end
}.

(** A running script: what it has written to disk so far, and how it
    ended.  Files written before an exception stay written. *)
Definition Script (W A : Type) : Type := (list W * completion A)%type.

#[export] Instance script_monad (W : Type) : Monad (Script W) := {
  ret := fun A a => ([], Normal a);
  bind := fun A B c k =>
    match c with
    | (w, Normal a) => let (w', r) := k a in (w ++ w', r)
    | (w, Raise e) => (w, Raise e)
    end
}.

Definition lift {W A : Type} (c : completion A) : Script W A := ([], c).
Definition write {W : Type} (w : W) : Script W unit := ([w], Normal tt).

Definition written {W A : Type} (s : Script W A) : list W := fst s.
Definition outcome {W A : Type} (s : Script W A) : completion A := snd s.

(** [for x in xs: body(x)] *)
Fixpoint for_in {M : Type -> Type} `{Monad M} {X : Type}
    (xs : list X) (body : X -> M unit) : M unit :=
  match xs with
  | [] => ret tt
  | x :: xs' => bind (body x) (fun _ => for_in xs' body)
  end.

(** [for x in xs: s = body(s, x)], a loop that rebinds one variable. *)
Fixpoint for_fold {M : Type -> Type} `{Monad M} {X S : Type}
    (xs : list X) (body : S -> X -> M S) (s : S) : M S :=
  match xs with
  | [] => ret s
  | x :: xs' => bind (body s x) (fun s' => for_fold xs' body s')
  end.

Definition len {A : Type} (l : list A) : Z := Z.of_nat (List.length l).

(** [l[i]] on a Python list: a negative subscript counts from the end,
    and anything outside [-len .. len-1] raises [IndexError]. *)
Definition getitem {A : Type} (l : list A) (i : Z) : completion A :=
  let j := if i <? 0 then i + len l else i in
  if (j <? 0) || (len l <=? j) then Raise IndexError
  else match nth_error l (Z.to_nat j) with
       | Some a => Normal a
       | None => Raise IndexError
       end.

(** [range(lo, hi)] *)
Definition range (lo hi : Z) : list Z :=
  map (fun k => lo + Z.of_nat k) (seq 0 (Z.to_nat (hi - lo))).

(** [range(lo, hi, step)] and [np.arange(lo, hi, step)] for a positive
    integer step: [lo, lo+step, ...] below [hi]. *)
Definition range_step (lo hi step : Z) : list Z :=
  map (fun k => lo + Z.of_nat k * step)
      (seq 0 (Z.to_nat ((hi - lo + step - 1) / step))).

(** [l[lo:hi]] for [0 <= lo]. *)
Definition slice {A : Type} (l : list A) (lo hi : Z) : list A :=
  firstn (Z.to_nat (hi - lo)) (skipn (Z.to_nat lo) l).

End Py.
Import Py.

Declare Scope py_scope.
Delimit Scope py_scope with py.
Notation "x <- c ;; k" := (bind c (fun x => k))
  (at level 61, c at next level, right associativity) : py_scope.
Notation "c ;; k" := (bind c (fun _ => k))
  (at level 61, right associativity) : py_scope.
Open Scope py_scope.

(* ===================================================================== *)
(** * Floating-point numbers *)
(* ===================================================================== *)

(** numpy's [float64] is IEEE 754 binary64; the operations are the
    standard library's executable specification of it. *)
Module Binary64.

Definition prec : Z := 53.
Definition emax : Z := 1024.

Definition float64 : Type := spec_float.

(** Conversion of a Python [int] (exact for |z| < 2^53). *)
Definition of_Z (z : Z) : float64 := binary_normalize prec emax z 0 false.
Definition add : float64 -> float64 -> float64 := SFadd prec emax.
Definition sub : float64 -> float64 -> float64 := SFsub prec emax.
Definition mul : float64 -> float64 -> float64 := SFmul prec emax.
Definition div : float64 -> float64 -> float64 := SFdiv prec emax.
Definition neg : float64 -> float64 := SFopp.
Definition sqrt : float64 -> float64 := SFsqrt prec emax.

(** [np.pi] = 3.141592653589793 = 0x1.921fb54442d18p+1 *)
Definition pi : float64 := S754_finite false 7074237752028440 (-51).

(** [int(round(x))]: the nearest integer, a tie going to the even one. *)
Definition round (x : float64) : Z :=
  match x with
  | S754_finite s m e =>
      let mag :=
        match e with
        | Zneg p =>
            let d := Z.pow_pos 2 p in
            let q := Z.pos m / d in
            let r := Z.pos m mod d in
            match 2 * r ?= d with
            | Lt => q
            | Gt => q + 1
            | Eq => if Z.even q then q else q + 1
            end
        | _ => Z.pos m * 2 ^ e
        end in
      if s then - mag else mag
  | _ => 0
  end.

(** [np.linspace(start, stop, num)] with the end point included:
    [arange(0, num) * step + start] with [step = (stop - start) / (num - 1)],
    the last element then overwritten with [stop]. *)
Definition linspace (start stop : float64) (num : Z) : list float64 :=
  let div_ := num - 1 in
  let step := div (sub stop start) (of_Z div_) in
  map (fun k => if k =? div_ then stop
                else add (mul (of_Z k) step) start)
      (range 0 num).

End Binary64.

Definition Vec3 (F : Type) : Type := (F * F * F)%type.

(** A 4x4 array, read as [m row column]. *)
Definition Mat4 (F : Type) : Type := Z -> Z -> F.

(** The arithmetic [get_robot_image] uses, as an interface, so that the
    camera computation can be read over binary64 and over the real
    numbers (what the formulas mean).  [norm] is [np.linalg.norm] on an
    array of three numbers, a library routine of its own. *)
Class Arith (F : Type) : Type := {
  fconst : Z -> F;
  fpi : F;
  fadd : F -> F -> F;
  fsub : F -> F -> F;
  fmul : F -> F -> F;
  fdiv : F -> F -> F;
  fneg : F -> F;
  fsqrt : F -> F;
  norm : Vec3 F -> F
}.

(** The IEEE operations are those of numpy.  For [norm], numpy takes the
    sum of squares through its BLAS dot product, whose order of rounding
    is the library's own; here every operation is rounded in turn, which
    can differ from numpy's value in the last place. *)
#[export] Instance arith_binary64 : Arith Binary64.float64 := {|
  fconst := Binary64.of_Z;
  fpi := Binary64.pi;
  fadd := Binary64.add;
  fsub := Binary64.sub;
  fmul := Binary64.mul;
  fdiv := Binary64.div;
  fneg := Binary64.neg;
  fsqrt := Binary64.sqrt;
  norm := fun x =>
    let '(x0, x1, x2) := x in
    Binary64.sqrt
      (Binary64.add (Binary64.add (Binary64.mul x0 x0) (Binary64.mul x1 x1))
                    (Binary64.mul x2 x2))
|}.

(** Over the reals [norm] is the Euclidean length. *)
#[export] Instance arith_real : Arith R := {|
  fconst := IZR;
  fpi := PI;
  fadd := Rplus;
  fsub := Rminus;
  fmul := Rmult;
  fdiv := Rdiv;
  fneg := Ropp;
  fsqrt := R_sqrt.sqrt;
  norm := fun x =>
    let '(x0, x1, x2) := x in
    R_sqrt.sqrt (Rplus (Rplus (Rmult x0 x0) (Rmult x1 x1)) (Rmult x2 x2))
|}.

Section Vectors.
Context {F : Type} {A : Arith F}.

(** [upper - lower] on arrays of three numbers *)
Definition vec_sub (u v : Vec3 F) : Vec3 F :=
  let '(u0, u1, u2) := u in
  let '(v0, v1, v2) := v in
  (fsub u0 v0, fsub u1 v1, fsub u2 v2).

(** [base_tf[:3,3]]: rows 0..2 of column 3. *)
Definition translation_of (tf : Mat4 F) : Vec3 F := (tf 0 3, tf 1 3, tf 2 3).
End Vectors.

(* ===================================================================== *)
(** * The libraries the script calls *)
(* ===================================================================== *)

(** [pyrobotdesign] and [design_search]: graphs, rules and the matcher.
    [find_matches] returns the matches as a list, in the matcher's order. *)
Class Grammar : Type := {
  Graph : Type;
  Rule : Type;
  Match : Type;
  Robot : Type;
  lhs : Rule -> Graph;
  make_initial_graph : Graph;
  find_matches : Graph -> Graph -> list Match;
  apply_rule : Rule -> Graph -> Match -> Graph;
  build_normalized_robot : Graph -> Robot
}.

(** What the viewer is told about the camera. *)
Record CameraParams (F : Type) : Type := {
  position : Vec3 F;
  yaw : F;
  pitch : F;
  distance : F
}.
Arguments position {F} c.
Arguments yaw {F} c.
Arguments pitch {F} c.
Arguments distance {F} c.

(** The task classes, [rd.BulletSimulation] and [rd.GLFWViewer].  The two
    queries are made on the simulation that holds the task's terrain and
    the robot, placed at its presimulated position and turned half a turn
    about the y axis; [viewer_image] is [update], [render] twice and
    [get_image]; [flip_rows] is the subscript [[::-1,:,:]]. *)
Class Simulator (F : Type) (robot : Type) : Type := {
  Task : Type;
  Image : Type;
  task_class : string -> Task;
  get_link_transform : Task -> robot -> Z -> Mat4 F;
  get_robot_world_aabb : Task -> robot -> Vec3 F * Vec3 F;
  viewer_image : Task -> option robot -> CameraParams F -> Image;
  flip_rows : Image -> Image
}.

(** One log entry.  [rule_seq] is the column after [ast.literal_eval];
    [result] is the score, a finite float: every finite binary64 number is
    a multiple of 2^-1074, and [result] holds that multiple, so the order
    and the equality of scores are those of [Z]. *)
Record Row : Type := {
  rule_seq : list Z;
  result : Z
}.

(** The log as [pd.read_csv(log_file, index_col=0)] returns it.  Its index
    is the search's iteration counter 0, 1, 2, ..., one row per iteration,
    so the label of a row is its position. *)
Definition DataFrame : Type := list Row.

(** A row of a frame after [reset_index()]: the old label has become the
    column [iteration]. *)
Record IndexedRow : Type := {
  iteration : Z;
  entry : Row
}.

(** [DataFrame.sort_values(by='result', ascending=...)] with the default
    [kind] (pandas documents it as quicksort). *)
Class Pandas : Type := {
  sort_values : bool -> list IndexedRow -> list IndexedRow
}.

(** What any sort algorithm of the library guarantees: the rows are
    rearranged, and the scores come out in the requested order. *)
Definition score_desc (x y : IndexedRow) : Prop :=
  result (entry y) <= result (entry x).

Definition score_asc (x y : IndexedRow) : Prop :=
  result (entry x) <= result (entry y).

Record sort_values_contract (P : Pandas) : Prop := {
  sort_values_perm :
    forall asc rows, Permutation rows (sort_values asc rows);
  sort_values_desc :
    forall rows, StronglySorted score_desc (sort_values false rows);
  sort_values_asc :
    forall rows, StronglySorted score_asc (sort_values true rows)
}.

(** The files the script writes: [f"iteration_{i:05}.png"],
    [f"sorted_{i:05}.png"] and [f"terrain_{task}.png"] in the directory
    given by [--save_image_dir]. *)
Inductive Filename : Type :=
| iteration_png (i : Z)
| sorted_png (i : Z)
| terrain_png (task : string).

(** The command-line arguments [main] looks at; [--type] is optional. *)
Record Args : Type := {
  args_task : string;
  args_type : option string
}.

(* ===================================================================== *)
(** * The script *)
(* ===================================================================== *)

Section Dataframe.

(** [df['rule_seq'][index]]: a lookup by label in an integer index.  With
    the labels 0 .. n-1 of a [DataFrame] the label is the position, and
    any other label is missing; a log whose index column does not run
    0, 1, 2, ... is outside this model. *)
Definition loc (df : DataFrame) (index : Z) : completion Row :=
  if (index <? 0) || (len df <=? index) then Raise KeyError
  else match nth_error df (Z.to_nat index) with
       | Some row => Normal row
       | None => Raise KeyError
       end.

(** [df[lo:hi]] followed by [reset_index()]: the rows at positions
    [lo .. hi-1], each with its label. *)
Definition slice_rows (df : DataFrame) (lo hi : Z) : list IndexedRow :=
  map (fun p => {| iteration := fst p; entry := snd p |})
      (combine (range lo hi) (slice df lo hi)).

(** [block.ix[i]] on a frame whose index is 0 .. len-1. *)
Definition ix (block : list IndexedRow) (i : Z) : completion IndexedRow :=
  if (i <? 0) || (len block <=? i) then Raise KeyError
  else match nth_error block (Z.to_nat i) with
       | Some row => Normal row
       | None => Raise KeyError
       end.

End Dataframe.

Section Results.

Context {G : Grammar}.

(** Lines 12-19. *)
Definition make_robot_from_rule_sequence
    (rule_sequence : list Z) (rules : list Rule) : completion Robot :=
  graph <- for_fold rule_sequence
      (fun graph r =>
         rule <- getitem rules r ;;
         let matches := find_matches (lhs rule) graph in
         match matches with
         | [] => ret graph
         | first :: _ =>
             rule' <- getitem rules r ;;
             ret (apply_rule rule' graph first)
         end)
      make_initial_graph ;;
  ret (build_normalized_robot graph).

Context {F : Type} {A : Arith F} {S : Simulator F Robot}.

(** Lines 25-45 of [get_robot_image]: the camera the viewer is given. *)
Definition camera_params (robot : option Robot) (task : Task)
    : CameraParams F :=
  match robot with
  | Some robot =>
      let base_tf := get_link_transform task robot 0 in
      let '(lower, upper) := get_robot_world_aabb task robot in
      {| position := translation_of base_tf;
         yaw := fdiv fpi (fconst 3);
         pitch := fdiv (fneg fpi) (fconst 6);
         distance := fmul (fconst 2) (norm (vec_sub upper lower)) |}
  | None =>
      {| position := (fconst 1, fconst 0, fconst 0);
         yaw := fdiv (fneg fpi) (fconst 3);
         pitch := fdiv (fneg fpi) (fconst 6);
         distance := fconst 5 |}
  end.

(** Lines 21-50. *)
Definition get_robot_image (robot : option Robot) (task : Task) : Image :=
  viewer_image task robot (camera_params robot task).

Definition File : Type := (Filename * Image)%type.

(** Lines 80-84, 97-102 and 115-119: build the robot, take and flip the
    picture, save it. *)
Definition render_to (name : Filename) (rule_seq : list Z)
    (rules : list Rule) (task : Task) : Script File unit :=
  robot <- lift (make_robot_from_rule_sequence rule_seq rules) ;;
  let im_data := flip_rows (get_robot_image (Some robot) task) in
  write (name, im_data).

Context {P : Pandas}.

Definition type_is (args : Args) (s : string) : bool :=
  match args_type args with
  | Some t => String.eqb t s
  | None => false
  end.

(** A frame with its index, as the sort sees it. *)
Definition rows_of (df : DataFrame) : list IndexedRow :=
  slice_rows df 0 (len df).

(** Lines 71-84. *)
Definition main_iterations (rules : list Rule) (iteration_df : DataFrame)
    (task : Task) : Script File unit :=
  let mid_indices := range_step 0 (len iteration_df + 1) 1000 in
  let offset := 10 in
  for_in mid_indices (fun mid_index =>
    let start_index := Z.max (mid_index - offset) 0 in
    let end_index := Z.min (mid_index + offset) (len iteration_df) in
    for_in (range start_index end_index) (fun index =>
      row <- lift (loc iteration_df index) ;;
      render_to (iteration_png index) (rule_seq row) rules task)).

(** Lines 86-102.  ([block_index], computed on line 100, is never used.) *)
Definition main_iterations_top (rules : list Rule) (iteration_df : DataFrame)
    (task : Task) : Script File unit :=
  let block_size := 1000 in
  let count := 10 in
  for_in (range_step 0 (len iteration_df) block_size) (fun start_index =>
    let end_index := Z.min (start_index + block_size) (len iteration_df) in
    let block := slice_rows iteration_df start_index end_index in
    let block := sort_values false block in
    for_in (range 0 count) (fun i =>
      row <- lift (ix block i) ;;
      render_to (iteration_png (iteration row)) (rule_seq (entry row))
                rules task)).

(** Lines 104-119.  Line 108 calls [sort_values] and drops the frame it
    returns; [iteration_df] itself is read afterwards. *)
Definition main_percentiles (rules : list Rule) (iteration_df : DataFrame)
    (task : Task) : Script File unit :=
  let percentiles :=
    Binary64.linspace (Binary64.of_Z 0) (Binary64.of_Z 1) 11 in
  let offset := 10 in
  let _ := sort_values true (rows_of iteration_df) in
  for_in percentiles (fun percentile =>
    let mid_index :=
      Binary64.round
        (Binary64.mul percentile (Binary64.of_Z (len iteration_df - 1))) in
    let start_index := Z.max (mid_index - offset) 0 in
    let end_index := Z.min (mid_index + offset) (len iteration_df) in
    for_in (range start_index end_index) (fun index =>
      row <- lift (loc iteration_df index) ;;
      render_to (sorted_png index) (rule_seq row) rules task)).

(** Lines 121-127. *)
Definition main_terrain (args : Args) (task : Task) : Script File unit :=
  let im_data := flip_rows (get_robot_image None task) in
  write (terrain_png (args_task args), im_data).

(** Lines 52-127: an [if] on [iterations], then a second [if] with its
    [elif] chain, which has no [else]. *)
Definition main (args : Args) (rules : list Rule) (iteration_df : DataFrame)
    : Script File unit :=
  let task := task_class (args_task args) in
  (if type_is args "iterations"
   then main_iterations rules iteration_df task
   else ret tt) ;;
  (if type_is args "iterations_top"
   then main_iterations_top rules iteration_df task
   else if type_is args "percentiles"
   then main_percentiles rules iteration_df task
   else if type_is args "terrain"
   then main_terrain args task
   else ret tt).

End Results.

(* ===================================================================== *)
(** * Derived views of the loops *)
(* ===================================================================== *)

(** The half-open range of labels one centre gives rise to (lines 76-78
    and 111-113). *)
Definition window (mid_index n : Z) : list Z :=
  range (Z.max (mid_index - 10) 0) (Z.min (mid_index + 10) n).

(** The labels the [iterations] loops visit, in order. *)
Definition iterations_indices (n : Z) : list Z :=
  flat_map (fun mid_index => window mid_index n) (range_step 0 (n + 1) 1000).

(** The eleven centres of the [percentiles] mode (line 110). *)
Definition percentile_centres (n : Z) : list Z :=
  map (fun percentile =>
         Binary64.round (Binary64.mul percentile (Binary64.of_Z (n - 1))))
      (Binary64.linspace (Binary64.of_Z 0) (Binary64.of_Z 1) 11).

(** The labels the [percentiles] loops visit, in order. *)
Definition percentile_indices (n : Z) : list Z :=
  flat_map (fun mid_index => window mid_index n) (percentile_centres n).

(** The reads of the [iterations_top] loops, in order: for each block
    start, the positions 0 to 9 of the sorted block. *)
Definition top_jobs (n : Z) : list (Z * Z) :=
  flat_map (fun start_index => map (pair start_index) (range 0 10))
           (range_step 0 n 1000).


Section Step.
Context {G : Grammar}.

(** One pass of the loop of [make_robot_from_rule_sequence]. *)
Definition rewrite_step (rules : list Rule) (graph : Graph) (r : Z)
    : completion Graph :=
  rule <- getitem rules r ;;
  match find_matches (lhs rule) graph with
  | [] => ret graph
  | first :: _ =>
      rule' <- getitem rules r ;;
      ret (apply_rule rule' graph first)
  end.

End Step.

Section Visit.
Context {G : Grammar} {F : Type} {A : Arith F} {S : Simulator F Robot}.

(** The body shared by the loops over labels, and the loop itself. *)
Definition visit_one (name : Z -> Filename) (rules : list Rule)
    (df : DataFrame) (task : Task) (index : Z) : Script File unit :=
  row <- lift (loc df index) ;;
  render_to (name index) (rule_seq row) rules task.

Definition visit (name : Z -> Filename) (rules : list Rule)
    (df : DataFrame) (task : Task) (indices : list Z) : Script File unit :=
  for_in indices (visit_one name rules df task).

(** The block the [iterations_top] loop sorts for one [start_index], the
    rows it then reads, and the body run on each of them. *)
Definition block_at (df : DataFrame) (start_index : Z) : list IndexedRow :=
  slice_rows df start_index (Z.min (start_index + 1000) (len df)).

Definition top_one {P : Pandas} (rules : list Rule) (df : DataFrame)
    (task : Task) (start_index i : Z) : Script File unit :=
  row <- lift (ix (sort_values false (block_at df start_index)) i) ;;
  render_to (iteration_png (iteration row)) (rule_seq (entry row))
            rules task.
End Visit.

(** A rule index that the list subscript accepts. *)
Definition subscript_ok {A : Type} (l : list A) (r : Z) : Prop :=
  - len l <= r < len l.

(* ===================================================================== *)
(** * What the specification says of the rewriting loop *)
(* ===================================================================== *)

Section SpecBuild.
Context {G : Grammar}.

(** Written from the specification's section 4.1 (steps 1 to 3), for
    indices that are positions in the rule list: a rule without a match
    is skipped, a rule with matches is applied at the first of them. *)
Inductive spec_build (rules : list Rule) : Graph -> list Z -> Graph -> Prop :=
| spec_build_done (g : Graph) :
    spec_build rules g [] g
| spec_build_skip (g g' : Graph) (r : Z) (rs : list Z) (rule : Rule) :
    nth_error rules (Z.to_nat r) = Some rule ->
    find_matches (lhs rule) g = [] ->
    spec_build rules g rs g' ->
    spec_build rules g (r :: rs) g'
| spec_build_apply (g g' : Graph) (r : Z) (rs : list Z) (rule : Rule)
    (first : Match) (others : list Match) :
    nth_error rules (Z.to_nat r) = Some rule ->
    find_matches (lhs rule) g = first :: others ->
    spec_build rules (apply_rule rule g first) rs g' ->
    spec_build rules g (r :: rs) g'.
End SpecBuild.

(* ===================================================================== *)
(** * Small instances of the libraries, to run the script on *)
(* ===================================================================== *)

Module Toy.

(** A string grammar: a graph is a word, a rule rewrites one symbol, a
    match is a position of that symbol. *)
Record rule : Type := { rule_lhs : list Z; rule_rhs : list Z }.

Fixpoint positions (sym : Z) (g : list Z) (at_ : nat) : list nat :=
  match g with
  | [] => []
  | x :: g' =>
      if x =? sym then at_ :: positions sym g' (Datatypes.S at_)
      else positions sym g' (Datatypes.S at_)
  end.

Definition grammar : Grammar := {|
  Graph := list Z;
  Rule := rule;
  Match := nat;
  Robot := list Z;
  lhs := rule_lhs;
  make_initial_graph := [0];
  find_matches := fun pattern g =>
    match pattern with
    | [] => []
    | sym :: _ => positions sym g 0
    end;
  apply_rule := fun r g m => firstn m g ++ rule_rhs r ++ skipn (Datatypes.S m) g;
  build_normalized_robot := fun g => g
|}.

(** Rule 0 grows the word, rule 1 closes it. *)
Definition rules : list rule :=
  [ {| rule_lhs := [0]; rule_rhs := [1; 0] |};
    {| rule_lhs := [0]; rule_rhs := [2] |} ].

(** A picture records what was shown, from where, and whether it has
    been flipped. *)
Record image (F : Type) : Type := {
  shown : option (list Z);
  camera : CameraParams F;
  flipped : bool
}.
Arguments shown {F} i.
Arguments camera {F} i.
Arguments flipped {F} i.

(** Every robot sits at (1/2, 1/2, 1/2) in the unit box. *)
Definition simulator (F : Type) (A : Arith F) : Simulator F (list Z) := {|
  Task := string;
  Image := image F;
  task_class := fun name => name;
  get_link_transform := fun _ _ _ => fun row col =>
    if col =? 3 then fdiv (fconst 1) (fconst 2) else fconst 0;
  get_robot_world_aabb := fun _ _ =>
    ((fconst 0, fconst 0, fconst 0), (fconst 1, fconst 1, fconst 1));
  viewer_image := fun _ robot cam =>
    {| shown := robot; camera := cam; flipped := false |};
  flip_rows := fun im =>
    {| shown := shown im; camera := camera im; flipped := negb (flipped im) |}
|}.

(** Insertion sort.  [before x y] says that a row [x] being inserted goes
    in front of a row [y] already placed. *)
Fixpoint insert (before : IndexedRow -> IndexedRow -> bool)
    (x : IndexedRow) (l : list IndexedRow) : list IndexedRow :=
  match l with
  | [] => [x]
  | y :: l' => if before x y then x :: y :: l' else y :: insert before x l'
  end.

Definition isort (before : IndexedRow -> IndexedRow -> bool)
    (l : list IndexedRow) : list IndexedRow :=
  fold_right (insert before) [] l.

Definition score (x : IndexedRow) : Z := result (entry x).

(** A sort that keeps rows of equal score in their input order... *)
Definition pandas_stable : Pandas := {|
  sort_values := fun asc =>
    isort (fun x y => if asc then score x <=? score y
                      else score y <=? score x)
|}.

(** ... and one that does not: equal scores come out reversed. *)
Definition pandas_unstable : Pandas := {|
  sort_values := fun asc =>
    isort (fun x y => if asc then score x <? score y
                      else score y <? score x)
|}.

(** Logs. *)
Definition constant_log (n : nat) : DataFrame :=
  repeat {| rule_seq := [0; 1]; result := 0 |} n.

(** Entry 1 names a rule that does not exist; entries 0 and 2 are fine. *)
Definition log_with_bad_entry : DataFrame :=
  [ {| rule_seq := [0; 1]; result := 3 |};
    {| rule_seq := [0; 5; 1]; result := 5 |};
    {| rule_seq := [0; 0; 1]; result := 4 |} ].


Definition args (mode : string) : Args :=
  {| args_task := "FlatTerrainTask"; args_type := Some mode |}.

Definition sim64 : Simulator Binary64.float64 (@Robot grammar) :=
  simulator Binary64.float64 arith_binary64.

Definition sim_real : Simulator R (@Robot grammar) :=
  simulator R arith_real.

(** The script on the toy libraries, in binary64. *)
Definition run (P : Pandas) (mode : string) (df : DataFrame)
    : Script (Filename * image Binary64.float64) unit :=
  @main grammar Binary64.float64 arith_binary64 sim64 P (args mode) rules df.

End Toy.


(* ===================================================================== *)
(** * Facts about the Python layer *)
(* ===================================================================== *)

Lemma len_nonneg {A : Type} (l : list A) : 0 <= len l.
Proof. unfold len. lia. Qed.

Lemma range_length (lo hi : Z) : List.length (range lo hi) = Z.to_nat (hi - lo).
Proof. unfold range. now rewrite length_map, length_seq. Qed.

Lemma in_range (i lo hi : Z) : In i (range lo hi) <-> lo <= i < hi.
Proof.
  unfold range. rewrite in_map_iff. split.
  - intros (k & <- & Hk). apply in_seq in Hk. lia.
  - intros Hi. exists (Z.to_nat (i - lo)). split; [lia|].
    apply in_seq. lia.
Qed.

Lemma range_empty (lo hi : Z) : hi <= lo -> range lo hi = [].
Proof.
  intros H. unfold range.
  replace (Z.to_nat (hi - lo)) with 0%nat by lia. reflexivity.
Qed.

Lemma seq_offset (a n : nat) :
  seq a n = map (fun k => (a + k)%nat) (seq 0 n).
Proof.
  revert a. induction n as [|n IH]; intros a; simpl; [reflexivity|].
  f_equal; [lia|]. rewrite (IH (Datatypes.S a)), (IH 1%nat), map_map.
  apply map_ext. intros k. lia.
Qed.

Lemma range_split (lo mid hi : Z) :
  lo <= mid <= hi -> range lo hi = range lo mid ++ range mid hi.
Proof.
  intros H. unfold range.
  replace (Z.to_nat (hi - lo))
    with (Z.to_nat (mid - lo) + Z.to_nat (hi - mid))%nat by lia.
  rewrite seq_app, map_app. f_equal.
  simpl. rewrite (seq_offset (Z.to_nat (mid - lo))), map_map.
  apply map_ext. intros k. lia.
Qed.

Lemma range_first (lo hi : Z) : lo < hi -> range lo hi = lo :: range (lo + 1) hi.
Proof.
  intros H. rewrite (range_split lo (lo + 1) hi) by lia.
  unfold range at 1. replace (Z.to_nat (lo + 1 - lo)) with 1%nat by lia.
  simpl. f_equal. lia.
Qed.

Lemma in_range_step (m hi step : Z) :
  0 < step ->
  In m (range_step 0 hi step) <-> 0 <= m < hi /\ m mod step = 0.
Proof.
  intros Hs. unfold range_step. rewrite in_map_iff. split.
  - intros (k & <- & Hk). apply in_seq in Hk.
    rewrite Z.add_0_l, Z.mod_mul by lia. split; [|reflexivity].
    destruct (Z_lt_le_dec 0 ((hi - 0 + step - 1) / step)) as [Hq|Hq]; [|lia].
    assert (Z.of_nat k <= (hi - 0 + step - 1) / step - 1) as Hk' by lia.
    assert (step * ((hi - 0 + step - 1) / step) <= hi - 0 + step - 1)
      by (apply Z.mul_div_le; lia).
    nia.
  - intros (Hm & Hmod). apply Z.mod_divide in Hmod; [|lia].
    destruct Hmod as (q & ->). exists (Z.to_nat q).
    assert (0 <= q) by nia. split; [lia|].
    apply in_seq. split; [lia|]. simpl.
    assert (q + 1 <= (hi - 0 + step - 1) / step); [|lia].
    apply Z.div_le_lower_bound; nia.
Qed.

(** ** Loops that write files *)

Section ScriptFacts.
Context {W : Type}.

Lemma script_bind_ret_r (c : Script W unit) : (c ;; ret tt) = c.
Proof.
  destruct c as [w [[]|e]]; simpl; [|reflexivity].
  now rewrite app_nil_r.
Qed.

Lemma script_bind_ret_l {B : Type} (k : unit -> Script W B) :
  (ret tt ;; k tt) = k tt.
Proof. simpl. now destruct (k tt). Qed.

Lemma script_bind_assoc {A B C : Type} (c : Script W A)
    (k : A -> Script W B) (h : B -> Script W C) :
  bind (bind c k) h = bind c (fun a => bind (k a) h).
Proof.
  destruct c as [w [a|e]]; simpl; [|reflexivity].
  destruct (k a) as [w' [b|e']]; simpl; [|reflexivity].
  destruct (h b) as [w'' r]. now rewrite app_assoc.
Qed.

Lemma for_in_app {X : Type} (xs ys : list X) (body : X -> Script W unit) :
  for_in (xs ++ ys) body = (for_in xs body ;; for_in ys body).
Proof.
  induction xs as [|x xs IH].
  - simpl. now destruct (for_in ys body).
  - cbn [for_in app]. rewrite IH. symmetry. apply script_bind_assoc.
Qed.

(** Two nested loops run their body over the concatenated inner lists. *)
Lemma for_in_nested {X Y : Type} (xs : list X) (inner : X -> list Y)
    (body : Y -> Script W unit) :
  for_in xs (fun x => for_in (inner x) body) = for_in (flat_map inner xs) body.
Proof.
  induction xs as [|x xs IH]; [reflexivity|].
  cbn [for_in flat_map]. now rewrite for_in_app, IH.
Qed.

Lemma for_in_ext {X : Type} (xs : list X) (f g : X -> Script W unit) :
  (forall x, In x xs -> f x = g x) -> for_in xs f = for_in xs g.
Proof.
  induction xs as [|x xs IH]; intros H; [reflexivity|].
  cbn [for_in]. rewrite (H x) by now left.
  rewrite IH; [reflexivity|]. intros y Hy. apply H. now right.
Qed.

(** A loop whose every pass ends normally writes what the passes write,
    in order. *)
Lemma for_in_normal {X : Type} (xs : list X) (body : X -> Script W unit) :
  Forall (fun x => outcome (body x) = Normal tt) xs ->
  for_in xs body = (flat_map (fun x => written (body x)) xs, Normal tt).
Proof.
  induction 1 as [|x xs Hx _ IH]; [reflexivity|].
  cbn [for_in flat_map]. rewrite IH.
  destruct (body x) as [w r]. simpl in Hx. subst r. reflexivity.
Qed.

(** A pass that raises ends the loop: what earlier passes and the
    failing pass itself wrote is kept, the later elements are not
    looked at. *)
Lemma for_in_raise {X : Type} (pre post : list X) (x : X)
    (body : X -> Script W unit) (e : exn) :
  Forall (fun y => outcome (body y) = Normal tt) pre ->
  outcome (body x) = Raise e ->
  for_in (pre ++ x :: post) body =
    (flat_map (fun y => written (body y)) pre ++ written (body x), Raise e).
Proof.
  intros Hpre Hx. rewrite for_in_app, (for_in_normal pre) by assumption.
  cbn [for_in]. destruct (body x) as [w r]. simpl in Hx. subst r.
  reflexivity.
Qed.

Lemma for_in_outcome_normal {X : Type} (xs : list X)
    (body : X -> Script W unit) :
  outcome (for_in xs body) = Normal tt <->
  Forall (fun x => outcome (body x) = Normal tt) xs.
Proof.
  split.
  - induction xs as [|x xs IH]; intros H; constructor.
    + cbn [for_in] in H. destruct (body x) as [w [[]|e]]; [reflexivity|].
      simpl in H. discriminate.
    + apply IH. cbn [for_in] in H.
      destruct (body x) as [w [[]|e]]; simpl in H; [|discriminate].
      destruct (for_in xs body) as [w' r]. exact H.
  - intros H. now rewrite for_in_normal.
Qed.
End ScriptFacts.

(** ** List subscripts *)

Lemma getitem_position {A : Type} (l : list A) (r : Z) :
  0 <= r < len l ->
  exists a, getitem l r = Normal a /\ nth_error l (Z.to_nat r) = Some a.
Proof.
  intros Hr. unfold getitem.
  destruct (Z.ltb_spec r 0) as [?|_]; [lia|].
  destruct (Z.ltb_spec r 0) as [?|_]; [lia|].
  destruct (Z.leb_spec (len l) r) as [?|_]; [lia|]. simpl.
  destruct (nth_error l (Z.to_nat r)) as [a|] eqn:E; [now exists a|].
  apply nth_error_None in E. unfold len in Hr. lia.
Qed.

Lemma getitem_from_end {A : Type} (l : list A) (r : Z) :
  - len l <= r < 0 ->
  exists a, getitem l r = Normal a /\
            nth_error l (Z.to_nat (len l + r)) = Some a.
Proof.
  intros Hr. unfold getitem.
  destruct (Z.ltb_spec r 0) as [_|?]; [|lia].
  destruct (Z.ltb_spec (r + len l) 0) as [?|_]; [lia|].
  destruct (Z.leb_spec (len l) (r + len l)) as [?|_]; [lia|]. simpl.
  rewrite (Z.add_comm (len l) r).
  destruct (nth_error l (Z.to_nat (r + len l))) as [a|] eqn:E; [now exists a|].
  apply nth_error_None in E. unfold len in *. lia.
Qed.

Lemma getitem_normal_iff {A : Type} (l : list A) (r : Z) :
  (exists a, getitem l r = Normal a) <-> subscript_ok l r.
Proof.
  unfold subscript_ok. split.
  - intros (a & H). unfold getitem in H.
    destruct (Z.ltb_spec r 0);
      [destruct (Z.ltb_spec (r + len l) 0); [discriminate|];
       destruct (Z.leb_spec (len l) (r + len l)); [discriminate|]; lia
      |destruct (Z.ltb_spec r 0); [lia|];
       destruct (Z.leb_spec (len l) r); [discriminate|]; lia].
  - intros Hr. destruct (Z_lt_le_dec r 0).
    + destruct (getitem_from_end l r) as (a & H & _); [lia|]. now exists a.
    + destruct (getitem_position l r) as (a & H & _); [lia|]. now exists a.
Qed.

Lemma getitem_cases {A : Type} (l : list A) (r : Z) :
  (exists a, getitem l r = Normal a) \/ getitem l r = Raise IndexError.
Proof.
  unfold getitem.
  destruct ((_ <? 0) || _); [now right|].
  destruct (nth_error _ _) as [a|]; [left; now exists a|now right].
Qed.

Lemma getitem_raise_iff {A : Type} (l : list A) (r : Z) :
  getitem l r = Raise IndexError <-> (len l <= r \/ r < - len l).
Proof.
  split.
  - intros H. destruct (Z_le_gt_dec (len l) r); [now left|].
    destruct (Z_lt_le_dec r (- len l)); [now right|].
    assert (subscript_ok l r) as Hok by (unfold subscript_ok; lia).
    apply getitem_normal_iff in Hok. destruct Hok as (a & Ha). congruence.
  - intros H. destruct (getitem_cases l r) as [Hn|He]; [|exact He].
    apply getitem_normal_iff in Hn. unfold subscript_ok in Hn. lia.
Qed.

(** ** The rewriting loop *)

Section BuildFacts.
Context {G : Grammar}.

Lemma make_robot_unfold (rs : list Z) (rules : list Rule) :
  make_robot_from_rule_sequence rs rules =
  (graph <- for_fold rs (rewrite_step rules) make_initial_graph ;;
   ret (build_normalized_robot graph)).
Proof. reflexivity. Qed.

Lemma rewrite_step_ok (rules : list Rule) (graph : Graph) (r : Z) (rule : Rule) :
  getitem rules r = Normal rule ->
  rewrite_step rules graph r =
    Normal (match find_matches (lhs rule) graph with
            | [] => graph
            | first :: _ => apply_rule rule graph first
            end).
Proof.
  intros H. unfold rewrite_step. rewrite H. simpl.
  now destruct (find_matches (lhs rule) graph).
Qed.

Lemma rewrite_step_raise (rules : list Rule) (graph : Graph) (r : Z) :
  getitem rules r = Raise IndexError ->
  rewrite_step rules graph r = Raise IndexError.
Proof. intros H. unfold rewrite_step. now rewrite H. Qed.

Lemma loop_normal_iff (rules : list Rule) (rs : list Z) (g : Graph) :
  (exists g', for_fold rs (rewrite_step rules) g = Normal g') <->
  Forall (subscript_ok rules) rs.
Proof.
  revert g. induction rs as [|r rs IH]; intros g.
  - split; [constructor|]. intros _. now exists g.
  - cbn [for_fold]. split.
    + intros (g' & H).
      destruct (getitem_cases rules r) as [(rule & Hr)|Hr].
      * constructor; [apply getitem_normal_iff; now exists rule|].
        rewrite (rewrite_step_ok _ _ _ _ Hr) in H. simpl in H.
        eapply IH. exists g'. exact H.
      * rewrite (rewrite_step_raise _ _ _ Hr) in H. discriminate.
    + intros H. inversion H as [|? ? Hr Hrs]; subst.
      apply getitem_normal_iff in Hr. destruct Hr as (rule & Hr).
      rewrite (rewrite_step_ok _ _ _ _ Hr). simpl. now apply IH.
Qed.

Lemma loop_cases (rules : list Rule) (rs : list Z) (g : Graph) :
  (exists g', for_fold rs (rewrite_step rules) g = Normal g') \/
  for_fold rs (rewrite_step rules) g = Raise IndexError.
Proof.
  revert g. induction rs as [|r rs IH]; intros g; [left; now exists g|].
  cbn [for_fold].
  destruct (getitem_cases rules r) as [(rule & Hr)|Hr].
  - rewrite (rewrite_step_ok _ _ _ _ Hr). simpl. apply IH.
  - rewrite (rewrite_step_raise _ _ _ Hr). now right.
Qed.

Lemma make_robot_normal_iff (rs : list Z) (rules : list Rule) :
  (exists robot, make_robot_from_rule_sequence rs rules = Normal robot) <->
  Forall (subscript_ok rules) rs.
Proof.
  rewrite make_robot_unfold, <- (loop_normal_iff rules rs make_initial_graph).
  split.
  - intros (robot & H).
    destruct (for_fold rs _ _) as [g|e]; [now exists g|discriminate].
  - intros (g & H). rewrite H. now eexists.
Qed.

Lemma make_robot_cases (rs : list Z) (rules : list Rule) :
  (exists robot, make_robot_from_rule_sequence rs rules = Normal robot) \/
  make_robot_from_rule_sequence rs rules = Raise IndexError.
Proof.
  rewrite make_robot_unfold.
  destruct (loop_cases rules rs make_initial_graph) as [(g & H)|H];
    rewrite H; [left; now eexists|now right].
Qed.

Lemma make_robot_raise_iff (rs : list Z) (rules : list Rule) :
  make_robot_from_rule_sequence rs rules = Raise IndexError <->
  Exists (fun r => len rules <= r \/ r < - len rules) rs.
Proof.
  split.
  - intros H.
    assert (Exists (fun r => ~ subscript_ok rules r) rs) as Hex.
    { apply neg_Forall_Exists_neg.
      - intros r. unfold subscript_ok.
        destruct (Z_le_gt_dec (- len rules) r); [|right; lia].
        destruct (Z_lt_le_dec r (len rules)); [left; lia|right; lia].
      - intros Hall. apply make_robot_normal_iff in Hall.
        destruct Hall as (robot & Hr). congruence. }
    apply Exists_exists in Hex. destruct Hex as (r & Hin & Hr).
    apply Exists_exists. exists r. split; [exact Hin|].
    unfold subscript_ok in Hr. lia.
  - intros H. destruct (make_robot_cases rs rules) as [Hn|He]; [|exact He].
    apply make_robot_normal_iff in Hn. apply Exists_exists in H.
    destruct H as (r & Hin & Hr). rewrite Forall_forall in Hn.
    specialize (Hn r Hin). unfold subscript_ok in Hn. lia.
Qed.

Lemma spec_build_unique (rules : list Rule) (rs : list Z) (g g1 g2 : Graph) :
  spec_build rules g rs g1 -> spec_build rules g rs g2 -> g1 = g2.
Proof.
  intros H1. revert g2.
  induction H1 as [g|g g' r rs rule Hn Hm _ IH
                  |g g' r rs rule first others Hn Hm _ IH];
    intros g2 H2; inversion H2; subst; try reflexivity;
    try (apply IH; congruence); congruence.
Qed.

Lemma loop_refines_spec (rules : list Rule) (rs : list Z) (g : Graph) :
  Forall (fun r => 0 <= r < len rules) rs ->
  exists g', spec_build rules g rs g' /\
             for_fold rs (rewrite_step rules) g = Normal g'.
Proof.
  intros H. revert g. induction H as [|r rs Hr _ IH]; intros g.
  - exists g. split; [constructor|reflexivity].
  - destruct (getitem_position rules r Hr) as (rule & Hg & Hn).
    cbn [for_fold]. rewrite (rewrite_step_ok _ _ _ _ Hg). simpl.
    destruct (find_matches (lhs rule) g) as [|first others] eqn:Hm.
    + destruct (IH g) as (g' & Hs & Hf). exists g'. split; [|exact Hf].
      eapply spec_build_skip; eauto.
    + destruct (IH (apply_rule rule g first)) as (g' & Hs & Hf).
      exists g'. split; [|exact Hf]. eapply spec_build_apply; eauto.
Qed.
End BuildFacts.

(** ** Rendering one entry, and the loops of [main] *)

Lemma loc_position (df : DataFrame) (index : Z) :
  0 <= index < len df ->
  exists row, loc df index = Normal row /\
              nth_error df (Z.to_nat index) = Some row.
Proof.
  intros Hi. unfold loc.
  destruct (Z.ltb_spec index 0) as [?|_]; [lia|].
  destruct (Z.leb_spec (len df) index) as [?|_]; [lia|]. simpl.
  destruct (nth_error df (Z.to_nat index)) as [row|] eqn:E; [now exists row|].
  apply nth_error_None in E. unfold len in *. lia.
Qed.

Lemma ix_position (block : list IndexedRow) (i : Z) :
  0 <= i < len block ->
  exists row, ix block i = Normal row /\
              nth_error block (Z.to_nat i) = Some row.
Proof.
  intros Hi. unfold ix.
  destruct (Z.ltb_spec i 0) as [?|_]; [lia|].
  destruct (Z.leb_spec (len block) i) as [?|_]; [lia|]. simpl.
  destruct (nth_error block (Z.to_nat i)) as [row|] eqn:E; [now exists row|].
  apply nth_error_None in E. unfold len in *. lia.
Qed.

Lemma ix_outside (block : list IndexedRow) (i : Z) :
  len block <= i -> ix block i = Raise KeyError.
Proof.
  intros Hi. unfold ix.
  destruct (Z.leb_spec (len block) i) as [_|?]; [|lia].
  now rewrite orb_true_r.
Qed.

Section RunFacts.
Context {G : Grammar} {F : Type} {A : Arith F} {S : Simulator F Robot}.

Lemma render_to_normal (name : Filename) (rs : list Z) (rules : list Rule)
    (task : Task) (robot : Robot) :
  make_robot_from_rule_sequence rs rules = Normal robot ->
  render_to name rs rules task =
    ([(name, flip_rows (get_robot_image (Some robot) task))], Normal tt).
Proof. intros H. unfold render_to. now rewrite H. Qed.

Lemma render_to_raise (name : Filename) (rs : list Z) (rules : list Rule)
    (task : Task) (e : exn) :
  make_robot_from_rule_sequence rs rules = Raise e ->
  render_to name rs rules task = ([], Raise e).
Proof. intros H. unfold render_to. now rewrite H. Qed.

Lemma visit_one_normal (name : Z -> Filename) (rules : list Rule)
    (df : DataFrame) (task : Task) (index : Z) (row : Row) (robot : Robot) :
  loc df index = Normal row ->
  make_robot_from_rule_sequence (rule_seq row) rules = Normal robot ->
  visit_one name rules df task index =
    ([(name index, flip_rows (get_robot_image (Some robot) task))], Normal tt).
Proof.
  intros Hl Hr. unfold visit_one. rewrite Hl. cbn [lift bind script_monad].
  now rewrite (render_to_normal _ _ _ _ _ Hr).
Qed.

Lemma visit_one_raise (name : Z -> Filename) (rules : list Rule)
    (df : DataFrame) (task : Task) (index : Z) (row : Row) (e : exn) :
  loc df index = Normal row ->
  make_robot_from_rule_sequence (rule_seq row) rules = Raise e ->
  visit_one name rules df task index = ([], Raise e).
Proof.
  intros Hl Hr. unfold visit_one. rewrite Hl. cbn [lift bind script_monad].
  now rewrite (render_to_raise _ _ _ _ _ Hr).
Qed.

Context {P : Pandas}.

Lemma main_iterations_visit (rules : list Rule) (df : DataFrame) (task : Task) :
  main_iterations rules df task =
  visit iteration_png rules df task (iterations_indices (len df)).
Proof.
  unfold main_iterations, visit, iterations_indices.
  now rewrite <- for_in_nested.
Qed.

Lemma main_percentiles_visit (rules : list Rule) (df : DataFrame) (task : Task) :
  main_percentiles rules df task =
  visit sorted_png rules df task (percentile_indices (len df)).
Proof.
  unfold main_percentiles, visit, percentile_indices, percentile_centres.
  rewrite flat_map_concat_map, map_map, <- flat_map_concat_map.
  now rewrite <- for_in_nested.
Qed.

Lemma main_iterations_top_blocks (rules : list Rule) (df : DataFrame)
    (task : Task) :
  main_iterations_top rules df task =
  for_in (range_step 0 (len df) 1000) (fun start_index =>
    for_in (range 0 10) (top_one rules df task start_index)).
Proof. reflexivity. Qed.
End RunFacts.

(** ** Blocks of the log *)

Lemma in_combine_nth {A B : Type} (l1 : list A) (l2 : list B) (a : A) (b : B) :
  In (a, b) (combine l1 l2) ->
  exists k, nth_error l1 k = Some a /\ nth_error l2 k = Some b.
Proof.
  revert l2. induction l1 as [|x l1 IH]; intros [|y l2] H; try contradiction.
  destruct H as [H|H].
  - inversion H; subst. now exists 0%nat.
  - destruct (IH _ H) as (k & H1 & H2). now exists (Datatypes.S k).
Qed.

Lemma slice_rows_length (df : DataFrame) (lo hi : Z) :
  0 <= lo -> hi <= len df ->
  List.length (slice_rows df lo hi) = Z.to_nat (hi - lo).
Proof.
  intros Hlo Hhi. unfold slice_rows, slice.
  rewrite length_map, length_combine, range_length, length_firstn, length_skipn.
  unfold len in Hhi. lia.
Qed.

Lemma slice_rows_in (df : DataFrame) (lo hi : Z) (t : IndexedRow) :
  0 <= lo -> In t (slice_rows df lo hi) ->
  lo <= iteration t < hi /\
  nth_error df (Z.to_nat (iteration t)) = Some (entry t).
Proof.
  intros Hlo H. unfold slice_rows in H. apply in_map_iff in H.
  destruct H as ([i row] & <- & H). simpl.
  apply in_combine_nth in H. destruct H as (k & Hi & Hrow).
  unfold range in Hi. rewrite nth_error_map, nth_error_seq in Hi.
  unfold slice in Hrow. rewrite nth_error_firstn, nth_error_skipn in Hrow.
  destruct (Nat.ltb_spec k (Z.to_nat (hi - lo))) as [Hk|Hk]; [|discriminate].
  simpl in Hi. inversion Hi; subst i. split; [lia|].
  rewrite <- Hrow. f_equal. lia.
Qed.

Lemma block_at_length (df : DataFrame) (start_index : Z) :
  0 <= start_index <= len df ->
  len (block_at df start_index) = Z.min 1000 (len df - start_index).
Proof.
  intros H. unfold block_at, len at 1.
  rewrite slice_rows_length; lia.
Qed.

Lemma block_at_in (df : DataFrame) (start_index : Z) (t : IndexedRow) :
  0 <= start_index -> In t (block_at df start_index) ->
  start_index <= iteration t < start_index + 1000 /\
  loc df (iteration t) = Normal (entry t) /\ In (entry t) df.
Proof.
  intros Hs H. apply slice_rows_in in H; [|exact Hs].
  destruct H as (Hi & Hn). split; [lia|].
  assert (In (entry t) df) as Hin by (eapply nth_error_In; exact Hn).
  split; [|exact Hin].
  assert (Z.to_nat (iteration t) < List.length df)%nat as Hlt
    by (apply nth_error_Some; congruence).
  destruct (loc_position df (iteration t)) as (row & Hl & Hn');
    [unfold len; lia|]. congruence.
Qed.


(** Reading positions [a .. a+k-1] of a frame that has them is walking
    through that part of it. *)
Lemma for_in_ix {W : Type} (block : list IndexedRow)
    (body : IndexedRow -> Script W unit) (k a : nat) :
  (a + k <= List.length block)%nat ->
  for_in (map (fun j => 0 + Z.of_nat j) (seq a k))
         (fun i => row <- lift (ix block i) ;; body row) =
  for_in (firstn k (skipn a block)) body.
Proof.
  revert a. induction k as [|k IH]; intros a Hk; [reflexivity|].
  destruct (ix_position block (Z.of_nat a)) as (row & Hix & Hn);
    [unfold len; lia|].
  rewrite Nat2Z.id in Hn.
  assert (skipn a block = row :: skipn (Datatypes.S a) block) as Hsk.
  { rewrite <- (firstn_skipn a block) in Hn at 1.
    rewrite nth_error_app2 in Hn by (rewrite length_firstn; lia).
    rewrite length_firstn in Hn.
    replace (a - Nat.min a (List.length block))%nat with 0%nat in Hn by lia.
    destruct (skipn a block) as [|x rest] eqn:E; [discriminate|].
    simpl in Hn. inversion Hn; subst x. f_equal.
    change (Datatypes.S a) with (1 + a)%nat.
    now rewrite <- skipn_skipn, E. }
  rewrite Hsk. cbn [seq map firstn for_in].
  rewrite Z.add_0_l, Hix. rewrite <- (IH (Datatypes.S a)) by lia.
  cbn [lift bind script_monad]. destruct (body row) as [w r].
  rewrite app_nil_l. reflexivity.
Qed.

Lemma for_in_top {W : Type} (block : list IndexedRow)
    (body : IndexedRow -> Script W unit) :
  10 <= len block ->
  for_in (range 0 10) (fun i => row <- lift (ix block i) ;; body row) =
  for_in (firstn 10 block) body.
Proof.
  intros H. unfold range. change (Z.to_nat (10 - 0)) with 10%nat.
  rewrite (for_in_ix block body 10 0); [reflexivity|].
  unfold len in H. lia.
Qed.

(** ** The two insertion sorts meet the library's contract *)

Lemma insert_perm (before : IndexedRow -> IndexedRow -> bool)
    (x : IndexedRow) (l : list IndexedRow) :
  Permutation (x :: l) (Toy.insert before x l).
Proof.
  induction l as [|y l IH]; simpl; [reflexivity|].
  destruct (before x y); [reflexivity|].
  rewrite perm_swap. now constructor.
Qed.

Lemma isort_perm (before : IndexedRow -> IndexedRow -> bool)
    (l : list IndexedRow) :
  Permutation l (Toy.isort before l).
Proof.
  induction l as [|x l IH]; simpl; [constructor|].
  rewrite <- insert_perm. now constructor.
Qed.

Section InsertionSorted.
Variable R : IndexedRow -> IndexedRow -> Prop.
Variable before : IndexedRow -> IndexedRow -> bool.
Hypothesis R_trans : forall x y z, R x y -> R y z -> R x z.
Hypothesis before_true : forall x y, before x y = true -> R x y.
Hypothesis before_false : forall x y, before x y = false -> R y x.

Lemma insert_sorted (x : IndexedRow) (l : list IndexedRow) :
  StronglySorted R l -> StronglySorted R (Toy.insert before x l).
Proof.
  induction 1 as [|y l Hs IH Hall]; simpl.
  - repeat constructor.
  - destruct (before x y) eqn:E.
    + constructor; [now constructor|]. constructor; [now apply before_true|].
      apply before_true in E. eapply Forall_impl; [|exact Hall].
      intros z Hz. now apply (R_trans x y z).
    + constructor; [exact IH|].
      apply (Permutation_Forall (insert_perm before x l)).
      constructor; [now apply before_false|exact Hall].
Qed.

Lemma isort_sorted (l : list IndexedRow) :
  StronglySorted R (Toy.isort before l).
Proof.
  induction l as [|x l IH]; simpl; [constructor|].
  now apply insert_sorted.
Qed.
End InsertionSorted.

Lemma toy_stable_contract : sort_values_contract Toy.pandas_stable.
Proof.
  constructor.
  - intros asc rows. apply isort_perm.
  - intros rows. apply isort_sorted; unfold score_desc, Toy.score; intros.
    + lia.
    + apply Z.leb_le. assumption.
    + apply Z.leb_gt in H. lia.
  - intros rows. apply isort_sorted; unfold score_asc, Toy.score; intros.
    + lia.
    + apply Z.leb_le. assumption.
    + apply Z.leb_gt in H. lia.
Qed.

Lemma toy_unstable_contract : sort_values_contract Toy.pandas_unstable.
Proof.
  constructor.
  - intros asc rows. apply isort_perm.
  - intros rows. apply isort_sorted; unfold score_desc, Toy.score; intros.
    + lia.
    + apply Z.ltb_lt in H. lia.
    + apply Z.ltb_ge. assumption.
  - intros rows. apply isort_sorted; unfold score_asc, Toy.score; intros.
    + lia.
    + apply Z.ltb_lt in H. lia.
    + apply Z.ltb_ge. assumption.
Qed.

(* ===================================================================== *)
(** * Phenotype construction *)
(* ===================================================================== *)

(** C8.  For a rule sequence whose indices are all positions of the rule
    list, [make_robot_from_rule_sequence] returns normally, and what it
    returns is the normalized form of the one graph that the
    specification's procedure reaches from the initial graph: the indices
    are taken in order, a rule without a match leaves the graph as it is
    and raises nothing, a rule with matches is applied at the first match
    the matcher returned. *)
Theorem make_robot_follows_rule_sequence {G : Grammar}
    (rule_sequence : list Z) (rules : list Rule) :
  Forall (fun r => 0 <= r < len rules) rule_sequence ->
  exists graph,
    spec_build rules make_initial_graph rule_sequence graph /\
    (forall graph',
       spec_build rules make_initial_graph rule_sequence graph' ->
       graph' = graph) /\
    make_robot_from_rule_sequence rule_sequence rules =
      Normal (build_normalized_robot graph).
Proof.
  intros Hrange.
  destruct (loop_refines_spec rules rule_sequence make_initial_graph Hrange)
    as (graph & Hspec & Hloop).
  exists graph. split; [exact Hspec|]. split.
  - intros graph' H'. exact (spec_build_unique _ _ _ _ _ H' Hspec).
  - rewrite make_robot_unfold, Hloop. reflexivity.
Qed.

(** The toy grammar on the sequence 0, 1, 0: the last rule finds nothing
    to rewrite. *)
Lemma make_robot_follows_rule_sequence_witness :
  Forall (fun r => 0 <= r < len Toy.rules) [0; 1; 0] /\
  exists graph : list Z,
    spec_build (G := Toy.grammar) Toy.rules [0] [0; 1; 0] graph /\
    (forall graph',
       spec_build (G := Toy.grammar) Toy.rules [0] [0; 1; 0] graph' ->
       graph' = graph) /\
    make_robot_from_rule_sequence (G := Toy.grammar) [0; 1; 0] Toy.rules =
      Normal graph.
Proof.
  assert (Forall (fun r => 0 <= r < len Toy.rules) [0; 1; 0]) as H
    by (repeat constructor; vm_compute; congruence).
  split; [exact H|].
  exact (@make_robot_follows_rule_sequence Toy.grammar [0; 1; 0] Toy.rules H).
Defined.

(** C9.  A negative rule index [r] with [-L <= r <= -1] is not an error:
    [rules[r]] is the rule at position [L + r].  The subscript raises
    [IndexError] exactly when [r >= L] or [r < -L], and so does the whole
    construction: it returns a robot exactly when every index of the
    sequence lies in [-L .. L-1]. *)
Theorem negative_rule_index_counts_from_end {G : Grammar}
    (rules : list Rule) (r : Z) :
  - len rules <= r <= -1 ->
  (exists rule,
     getitem rules r = Normal rule /\
     nth_error rules (Z.to_nat (len rules + r)) = Some rule /\
     forall graph,
       rewrite_step rules graph r =
       Normal (match find_matches (lhs rule) graph with
               | [] => graph
               | first :: _ => apply_rule rule graph first
               end)) /\
  (forall r', getitem rules r' = Raise IndexError <->
              (len rules <= r' \/ r' < - len rules)) /\
  (forall rule_sequence,
     (exists robot,
        make_robot_from_rule_sequence rule_sequence rules = Normal robot) <->
     Forall (fun r' => - len rules <= r' < len rules) rule_sequence) /\
  (forall rule_sequence,
     make_robot_from_rule_sequence rule_sequence rules = Raise IndexError <->
     Exists (fun r' => len rules <= r' \/ r' < - len rules) rule_sequence).
Proof.
  intros Hr. split; [|split; [|split]].
  - destruct (getitem_from_end rules r) as (rule & Hg & Hn); [lia|].
    exists rule. split; [exact Hg|]. split; [exact Hn|].
    intros graph. now apply rewrite_step_ok.
  - intros r'. apply getitem_raise_iff.
  - intros rs. apply make_robot_normal_iff.
  - intros rs. apply make_robot_raise_iff.
Qed.

(** In the toy grammar, rule -1 is rule 1. *)
Lemma negative_rule_index_counts_from_end_witness :
  - len Toy.rules <= -1 <= -1 /\
  make_robot_from_rule_sequence (G := Toy.grammar) [0; -1] Toy.rules =
  make_robot_from_rule_sequence (G := Toy.grammar) [0; 1] Toy.rules /\
  exists robot,
    make_robot_from_rule_sequence (G := Toy.grammar) [0; -1] Toy.rules =
    Normal robot.
Proof.
  assert (- len Toy.rules <= -1 <= -1) as H by (vm_compute; split; congruence).
  split; [exact H|]. split; [reflexivity|].
  destruct (@negative_rule_index_counts_from_end Toy.grammar Toy.rules (-1) H)
    as (_ & _ & Hok & _).
  apply Hok. repeat constructor; vm_compute; congruence.
Defined.

(* ===================================================================== *)
(** * Which branch of [main] runs *)
(* ===================================================================== *)

Section Modes.
Context {G : Grammar} {F : Type} {A : Arith F} {S : Simulator F Robot}
        {P : Pandas}.

Lemma main_on_iterations (args : Args) (rules : list Rule) (df : DataFrame) :
  args_type args = Some "iterations"%string ->
  main args rules df =
  main_iterations rules df (task_class (args_task args)).
Proof.
  intros H. unfold main, type_is. rewrite H.
  change (String.eqb "iterations" "iterations") with true.
  change (String.eqb "iterations" "iterations_top") with false.
  change (String.eqb "iterations" "percentiles") with false.
  change (String.eqb "iterations" "terrain") with false.
  cbv iota. apply script_bind_ret_r.
Qed.

Lemma main_on_iterations_top (args : Args) (rules : list Rule)
    (df : DataFrame) :
  args_type args = Some "iterations_top"%string ->
  main args rules df =
  main_iterations_top rules df (task_class (args_task args)).
Proof.
  intros H. unfold main, type_is. rewrite H.
  change (String.eqb "iterations_top" "iterations") with false.
  change (String.eqb "iterations_top" "iterations_top") with true.
  cbv iota. apply (script_bind_ret_l (fun _ => main_iterations_top _ _ _)).
Qed.

Lemma main_on_percentiles (args : Args) (rules : list Rule) (df : DataFrame) :
  args_type args = Some "percentiles"%string ->
  main args rules df =
  main_percentiles rules df (task_class (args_task args)).
Proof.
  intros H. unfold main, type_is. rewrite H.
  change (String.eqb "percentiles" "iterations") with false.
  change (String.eqb "percentiles" "iterations_top") with false.
  change (String.eqb "percentiles" "percentiles") with true.
  cbv iota. apply (script_bind_ret_l (fun _ => main_percentiles _ _ _)).
Qed.

Lemma main_on_other (args : Args) (rules : list Rule) (df : DataFrame) :
  type_is args "iterations" = false ->
  type_is args "iterations_top" = false ->
  type_is args "percentiles" = false ->
  type_is args "terrain" = false ->
  main args rules df = ([], Normal tt).
Proof.
  intros H1 H2 H3 H4. unfold main. rewrite H1, H2, H3, H4. reflexivity.
Qed.
End Modes.

Lemma window_spec (c n i : Z) :
  In i (window c n) <-> c - 10 <= i < c + 10 /\ 0 <= i < n.
Proof. unfold window. rewrite in_range. lia. Qed.

(* ===================================================================== *)
(** * Windowed mode *)
(* ===================================================================== *)

(** C2, as the code has it.  With [--type iterations] the script visits,
    in order, the row labels [iterations_indices n] for a log of [n] rows.
    A label [i] is among them exactly when some multiple [m] of 1000 with
    [0 <= m <= n] has [m - 10 <= i < m + 10] and [i] is a row of the log:
    ten rows before each multiple and ten from it on.  For 2500 rows these
    are 0..9, 990..1009 and 1990..2009. *)
Theorem iterations_visits_half_open_windows
    {G : Grammar} {F : Type} {A : Arith F} {S : Simulator F Robot} {P : Pandas}
    (args : Args) (rules : list Rule) (iteration_df : DataFrame) :
  args_type args = Some "iterations"%string ->
  main args rules iteration_df =
    visit iteration_png rules iteration_df (task_class (args_task args))
          (iterations_indices (len iteration_df)) /\
  (forall i,
     In i (iterations_indices (len iteration_df)) <->
     exists m, 0 <= m <= len iteration_df /\ m mod 1000 = 0 /\
               m - 10 <= i < m + 10 /\ 0 <= i < len iteration_df) /\
  iterations_indices 2500 = range 0 10 ++ range 990 1010 ++ range 1990 2010.
Proof.
  intros Htype. split; [|split].
  - rewrite (main_on_iterations _ _ _ Htype). apply main_iterations_visit.
  - intros i. unfold iterations_indices. rewrite in_flat_map. split.
    + intros (m & Hm & Hi). apply in_range_step in Hm; [|lia].
      apply window_spec in Hi. exists m. lia.
    + intros (m & Hm & Hmod & Hi). exists m. split.
      * apply in_range_step; lia.
      * apply window_spec. lia.
  - vm_compute. reflexivity.
Qed.

Lemma iterations_visits_half_open_windows_witness :
  args_type (Toy.args "iterations") = Some "iterations"%string /\
  Toy.run Toy.pandas_stable "iterations" (Toy.constant_log 3) =
  @visit Toy.grammar _ arith_binary64 Toy.sim64 iteration_png Toy.rules
         (Toy.constant_log 3) "FlatTerrainTask"%string (iterations_indices 3).
Proof.
  split; [reflexivity|].
  exact (proj1 (@iterations_visits_half_open_windows
                  Toy.grammar _ arith_binary64 Toy.sim64 Toy.pandas_stable
                  (Toy.args "iterations") Toy.rules (Toy.constant_log 3)
                  eq_refl)).
Defined.

(** C2 as stated does not hold: on a log of 2500 rows, every one of which
    builds, the run ends normally having written fifty pictures, and the
    rows 10, 1010, 2010 and 2490..2499, which the stated windows contain,
    are not among them. *)
Lemma iterations_windows_counterexample :
  let run := Toy.run Toy.pandas_stable "iterations" (Toy.constant_log 2500) in
  outcome run = Normal tt /\
  map fst (written run) =
    map iteration_png (range 0 10 ++ range 990 1010 ++ range 1990 2010) /\
  ~ In (iteration_png 10) (map fst (written run)) /\
  ~ In (iteration_png 1010) (map fst (written run)) /\
  ~ In (iteration_png 2010) (map fst (written run)) /\
  ~ (exists i, 2490 <= i /\ In (iteration_png i) (map fst (written run))).
Proof.
  assert (map fst (written (Toy.run Toy.pandas_stable "iterations"
                                    (Toy.constant_log 2500))) =
          map iteration_png (range 0 10 ++ range 990 1010 ++ range 1990 2010))
    as Hnames by (vm_compute; reflexivity).
  cbv zeta. split; [vm_compute; reflexivity|]. split; [exact Hnames|].
  rewrite Hnames.
  assert (forall i, In (iteration_png i)
             (map iteration_png (range 0 10 ++ range 990 1010 ++ range 1990 2010))
           -> 0 <= i < 10 \/ 990 <= i < 1010 \/ 1990 <= i < 2010) as Hin.
  { intros i Hi. apply in_map_iff in Hi. destruct Hi as (j & Hj & Hi).
    inversion Hj; subst j. rewrite !in_app_iff, !in_range in Hi. lia. }
  split; [intros Hi; apply Hin in Hi; lia|].
  split; [intros Hi; apply Hin in Hi; lia|].
  split; [intros Hi; apply Hin in Hi; lia|].
  intros (i & Hge & Hi). apply Hin in Hi. lia.
Qed.

(* ===================================================================== *)
(** * Percentile mode *)
(* ===================================================================== *)

(** C1, as the code has it.  With [--type percentiles] the script visits,
    in order, the row labels [percentile_indices n]: for each of the eleven
    percentiles [p] of [linspace(0.0, 1.0, 11)], from 0.0 to 1.0, the
    centre is [round(p * (n - 1))], computed in binary64, and the labels
    visited for a centre [c] are those [i] with [c - 10 <= i < c + 10] that
    are rows of the log.  For 101 rows the centres are 0, 10, ..., 100.
    (Nothing is said here about the order of the rows behind the labels.) *)
Theorem percentiles_visits_half_open_windows
    {G : Grammar} {F : Type} {A : Arith F} {S : Simulator F Robot} {P : Pandas}
    (args : Args) (rules : list Rule) (iteration_df : DataFrame) :
  args_type args = Some "percentiles"%string ->
  let n := len iteration_df in
  let percentiles :=
    Binary64.linspace (Binary64.of_Z 0) (Binary64.of_Z 1) 11 in
  main args rules iteration_df =
    visit sorted_png rules iteration_df (task_class (args_task args))
          (percentile_indices n) /\
  List.length percentiles = 11%nat /\
  hd_error percentiles = Some (Binary64.of_Z 0) /\
  nth_error percentiles 10 = Some (Binary64.of_Z 1) /\
  percentile_centres n =
    map (fun p => Binary64.round (Binary64.mul p (Binary64.of_Z (n - 1))))
        percentiles /\
  percentile_indices n =
    flat_map (fun c => window c n) (percentile_centres n) /\
  (forall c i, In i (window c n) <-> c - 10 <= i < c + 10 /\ 0 <= i < n) /\
  percentile_centres 101 = [0; 10; 20; 30; 40; 50; 60; 70; 80; 90; 100].
Proof.
  intros Htype n percentiles.
  split; [|split; [|split; [|split; [|split; [|split; [|split]]]]]];
    try reflexivity.
  - rewrite (main_on_percentiles _ _ _ Htype). apply main_percentiles_visit.
  - intros c i. apply window_spec.
Qed.

Lemma percentiles_visits_half_open_windows_witness :
  args_type (Toy.args "percentiles") = Some "percentiles"%string /\
  Toy.run Toy.pandas_stable "percentiles" (Toy.constant_log 3) =
  @visit Toy.grammar _ arith_binary64 Toy.sim64 sorted_png Toy.rules
         (Toy.constant_log 3) "FlatTerrainTask"%string (percentile_indices 3).
Proof.
  split; [reflexivity|].
  exact (proj1 (@percentiles_visits_half_open_windows
                  Toy.grammar _ arith_binary64 Toy.sim64 Toy.pandas_stable
                  (Toy.args "percentiles") Toy.rules (Toy.constant_log 3)
                  eq_refl)).
Defined.

(** C1 as stated does not hold: on a log of 101 rows the window of the
    centre 10 is 0..19 and leaves 20 out, and the run writes 201 pictures,
    the eleventh of them for row 0 again (the second window has begun),
    where windows of ten rows on either side of each centre would make it
    211 pictures with row 10 in eleventh place. *)
Lemma percentiles_windows_counterexample :
  let run := Toy.run Toy.pandas_stable "percentiles" (Toy.constant_log 101) in
  In 10 (percentile_centres 101) /\
  window 10 101 = range 0 20 /\
  ~ In 20 (window 10 101) /\
  outcome run = Normal tt /\
  map fst (written run) =
    map sorted_png
      (range 0 10 ++ range 0 20 ++ range 10 30 ++ range 20 40 ++ range 30 50 ++
       range 40 60 ++ range 50 70 ++ range 60 80 ++ range 70 90 ++
       range 80 100 ++ range 90 101) /\
  List.length (written run) = 201%nat /\
  nth_error (map fst (written run)) 10 = Some (sorted_png 0).
Proof.
  cbv zeta. split; [vm_compute; tauto|]. split; [reflexivity|].
  split; [rewrite window_spec; lia|].
  repeat split; vm_compute; reflexivity.
Qed.

(** Line 108 has no effect on what is read: with the better-scoring row
    first in the log, [sorted_00000.png] shows that row's robot, not the
    robot of the row with the lowest score. *)
Example percentiles_reads_log_order :
  let df := [ {| rule_seq := [0; 1]; result := 9 |};
              {| rule_seq := [1]; result := 1 |} ] in
  option_map (fun f => (fst f, Toy.shown (snd f)))
    (hd_error (written (Toy.run Toy.pandas_stable "percentiles" df))) =
  Some (sorted_png 0, Some [1; 2]) /\
  make_robot_from_rule_sequence (G := Toy.grammar) [0; 1] Toy.rules =
    Normal [1; 2] /\
  make_robot_from_rule_sequence (G := Toy.grammar) [1] Toy.rules =
    Normal [2].
Proof. repeat split; vm_compute; reflexivity. Qed.

(* ===================================================================== *)
(** * Failures *)
(* ===================================================================== *)

Section NamesWritten.
Context {G : Grammar} {F : Type} {A : Arith F} {S : Simulator F Robot}.

Lemma visit_names (name : Z -> Filename) (rules : list Rule)
    (df : DataFrame) (task : Task) (indices : list Z) :
  Forall (fun j => exists row robot,
            loc df j = Normal row /\
            make_robot_from_rule_sequence (rule_seq row) rules = Normal robot)
         indices ->
  Forall (fun j => outcome (visit_one name rules df task j) = Normal tt)
         indices /\
  map fst (flat_map (fun j => written (visit_one name rules df task j))
                    indices) = map name indices.
Proof.
  induction 1 as [|j js (row & robot & Hl & Hr) _ (IH1 & IH2)].
  - split; [constructor|reflexivity].
  - rewrite Forall_cons_iff.
    change (flat_map (fun j => written (visit_one name rules df task j))
                     (j :: js))
      with (written (visit_one name rules df task j) ++
            flat_map (fun j => written (visit_one name rules df task j)) js).
    unfold File in *. rewrite map_app, IH2.
    rewrite (visit_one_normal name rules df task j row robot Hl Hr).
    split; [split; [reflexivity|exact IH1]|reflexivity].
Qed.
End NamesWritten.

Lemma for_in_map {W X Y : Type} (f : X -> Y) (xs : list X)
    (body : Y -> Script W unit) :
  for_in (map f xs) body = for_in xs (fun x => body (f x)).
Proof.
  induction xs as [|x xs IH]; [reflexivity|].
  cbn [map for_in]. now rewrite IH.
Qed.

Section FirstFailure.
Context {G : Grammar} {F : Type} {A : Arith F} {S : Simulator F Robot}
        {P : Pandas}.
Variable rules : list Rule.
Variable df : DataFrame.
Variable task : Task.

Lemma visit_first_failure (name : Z -> Filename)
    (earlier later : list Z) (index : Z) (row : Row) :
  Forall (fun j => exists row' robot,
            loc df j = Normal row' /\
            make_robot_from_rule_sequence (rule_seq row') rules = Normal robot)
         earlier ->
  loc df index = Normal row ->
  Exists (fun r => len rules <= r \/ r < - len rules) (rule_seq row) ->
  outcome (visit name rules df task (earlier ++ index :: later)) =
    Raise IndexError /\
  map fst (written (visit name rules df task (earlier ++ index :: later))) =
    map name earlier.
Proof.
  intros Hearlier Hloc Hbad. unfold visit.
  apply make_robot_raise_iff in Hbad.
  pose proof (visit_one_raise name rules df task index row IndexError
                Hloc Hbad) as Hone.
  destruct (visit_names name rules df task earlier Hearlier) as (Hok & Hnames).
  rewrite (for_in_raise earlier later index _ IndexError Hok)
    by (now rewrite Hone).
  rewrite Hone. simpl. rewrite app_nil_r. split; [reflexivity|exact Hnames].
Qed.

Lemma main_iterations_top_jobs :
  main_iterations_top rules df task =
  for_in (top_jobs (len df))
         (fun job => top_one rules df task (fst job) (snd job)).
Proof.
  rewrite main_iterations_top_blocks. unfold top_jobs.
  rewrite <- for_in_nested. apply for_in_ext.
  intros start_index _. now rewrite for_in_map.
Qed.

Lemma top_jobs_written (jobs : list (Z * Z)) :
  Forall (fun job => exists row robot,
            ix (sort_values false (block_at df (fst job))) (snd job) =
              Normal row /\
            make_robot_from_rule_sequence (rule_seq (entry row)) rules =
              Normal robot)
         jobs ->
  Forall (fun job =>
            outcome (top_one rules df task (fst job) (snd job)) = Normal tt)
         jobs /\
  Forall2 (fun job file => exists row,
             ix (sort_values false (block_at df (fst job))) (snd job) =
               Normal row /\
             fst file = iteration_png (iteration row))
          jobs
          (flat_map (fun job =>
                       written (top_one rules df task (fst job) (snd job)))
                    jobs).
Proof.
  induction 1 as [|job jobs (row & robot & Hix & Hr) _ (IH1 & IH2)].
  - split; constructor.
  - assert (top_one rules df task (fst job) (snd job) =
            ([(iteration_png (iteration row),
               flip_rows (get_robot_image (Some robot) task))], Normal tt))
      as Hone.
    { unfold top_one. rewrite Hix. cbn [lift bind script_monad].
      now rewrite (render_to_normal _ _ _ _ _ Hr). }
    split.
    + constructor; [now rewrite Hone|exact IH1].
    + cbn [flat_map]. rewrite Hone. simpl. constructor; [|exact IH2].
      now exists row.
Qed.

Lemma top_first_failure (earlier later : list (Z * Z)) (start_index i : Z)
    (row : IndexedRow) :
  Forall (fun job => exists row' robot,
            ix (sort_values false (block_at df (fst job))) (snd job) =
              Normal row' /\
            make_robot_from_rule_sequence (rule_seq (entry row')) rules =
              Normal robot)
         earlier ->
  ix (sort_values false (block_at df start_index)) i = Normal row ->
  Exists (fun r => len rules <= r \/ r < - len rules)
         (rule_seq (entry row)) ->
  let run := for_in (earlier ++ (start_index, i) :: later)
                    (fun job => top_one rules df task (fst job) (snd job)) in
  outcome run = Raise IndexError /\
  Forall2 (fun job file => exists row',
             ix (sort_values false (block_at df (fst job))) (snd job) =
               Normal row' /\
             fst file = iteration_png (iteration row'))
          earlier (written run).
Proof.
  intros Hearlier Hix Hbad run. subst run.
  apply make_robot_raise_iff in Hbad.
  assert (top_one rules df task start_index i = ([], Raise IndexError))
    as Hone.
  { unfold top_one. rewrite Hix. cbn [lift bind script_monad].
    now rewrite (render_to_raise _ _ _ _ _ Hbad). }
  destruct (top_jobs_written earlier Hearlier) as (Hok & Hfiles).
  rewrite (for_in_raise earlier later (start_index, i)
             (fun job => top_one rules df task (fst job) (snd job))
             IndexError Hok)
    by (simpl; now rewrite Hone).
  simpl fst at 3. simpl snd at 3. cbn [fst snd written outcome].
  rewrite Hone. simpl. rewrite app_nil_r. split; [reflexivity|exact Hfiles].
Qed.
End FirstFailure.

(** C4, as the code has it.  Nothing in the script catches an exception.
    In each of the three modes that render log entries, when the rule
    sequence of a selected entry holds an index outside [-L .. L-1] and
    the entries selected before it all build, the run ends with
    [IndexError] at that entry: the pictures of the earlier entries have
    been written, one each and in order, and neither that entry nor any
    later one is rendered.  The selected entries are the labels of
    [iterations_indices] and [percentile_indices], and for
    [iterations_top] the reads [top_jobs] of the sorted blocks. *)
Theorem entry_failure_ends_run
    {G : Grammar} {F : Type} {A : Arith F} {S : Simulator F Robot} {P : Pandas}
    (args : Args) (rules : list Rule) (iteration_df : DataFrame) :
  let run := main args rules iteration_df in
  let n := len iteration_df in
  let out_of_range := fun r => len rules <= r \/ r < - len rules in
  let sorted_block := fun start_index =>
    sort_values false (block_at iteration_df start_index) in
  (forall (earlier later : list Z) (index : Z) (row : Row),
     args_type args = Some "iterations"%string ->
     iterations_indices n = earlier ++ index :: later ->
     Forall (fun j => exists row' robot,
               loc iteration_df j = Normal row' /\
               make_robot_from_rule_sequence (rule_seq row') rules =
                 Normal robot) earlier ->
     loc iteration_df index = Normal row ->
     Exists out_of_range (rule_seq row) ->
     outcome run = Raise IndexError /\
     map fst (written run) = map iteration_png earlier) /\
  (forall (earlier later : list Z) (index : Z) (row : Row),
     args_type args = Some "percentiles"%string ->
     percentile_indices n = earlier ++ index :: later ->
     Forall (fun j => exists row' robot,
               loc iteration_df j = Normal row' /\
               make_robot_from_rule_sequence (rule_seq row') rules =
                 Normal robot) earlier ->
     loc iteration_df index = Normal row ->
     Exists out_of_range (rule_seq row) ->
     outcome run = Raise IndexError /\
     map fst (written run) = map sorted_png earlier) /\
  (forall (earlier later : list (Z * Z)) (start_index i : Z)
          (row : IndexedRow),
     args_type args = Some "iterations_top"%string ->
     top_jobs n = earlier ++ (start_index, i) :: later ->
     Forall (fun job => exists row' robot,
               ix (sorted_block (fst job)) (snd job) = Normal row' /\
               make_robot_from_rule_sequence (rule_seq (entry row')) rules =
                 Normal robot) earlier ->
     ix (sorted_block start_index) i = Normal row ->
     Exists out_of_range (rule_seq (entry row)) ->
     outcome run = Raise IndexError /\
     Forall2 (fun job file => exists row',
                ix (sorted_block (fst job)) (snd job) = Normal row' /\
                fst file = iteration_png (iteration row'))
             earlier (written run)).
Proof.
  intros run n out_of_range sorted_block. subst run n. split; [|split].
  - intros earlier later index row Htype Hsel Hearlier Hloc Hbad.
    rewrite (main_on_iterations _ _ _ Htype), main_iterations_visit, Hsel.
    now apply visit_first_failure with (row := row).
  - intros earlier later index row Htype Hsel Hearlier Hloc Hbad.
    rewrite (main_on_percentiles _ _ _ Htype), main_percentiles_visit, Hsel.
    now apply visit_first_failure with (row := row).
  - intros earlier later start_index i row Htype Hsel Hearlier Hix Hbad.
    rewrite (main_on_iterations_top _ _ _ Htype), main_iterations_top_jobs.
    rewrite Hsel.
    exact (top_first_failure rules iteration_df _ earlier later start_index i
             row Hearlier Hix Hbad).
Qed.

(** Entry 1 of the toy log names rule 5: the windowed run stops there
    after the picture of entry 0; in the top-k run entry 1 has the best
    score, is read first, and nothing is written. *)
Lemma entry_failure_ends_run_witness :
  let run := Toy.run Toy.pandas_stable "iterations" Toy.log_with_bad_entry in
  let top := Toy.run Toy.pandas_stable "iterations_top"
                     Toy.log_with_bad_entry in
  iterations_indices (len Toy.log_with_bad_entry) = [0] ++ 1 :: [2] /\
  (outcome run = Raise IndexError /\
   map fst (written run) = map iteration_png [0]) /\
  (exists later, top_jobs (len Toy.log_with_bad_entry) = [] ++ (0, 0) :: later) /\
  (outcome top = Raise IndexError /\ written top = []).
Proof.
  cbv zeta. split; [reflexivity|].
  destruct (@entry_failure_ends_run
              Toy.grammar _ arith_binary64 Toy.sim64 Toy.pandas_stable
              (Toy.args "iterations") Toy.rules Toy.log_with_bad_entry)
    as (Hiter & _ & _).
  destruct (@entry_failure_ends_run
              Toy.grammar _ arith_binary64 Toy.sim64 Toy.pandas_stable
              (Toy.args "iterations_top") Toy.rules Toy.log_with_bad_entry)
    as (_ & _ & Htop).
  split; [|split].
  - apply (Hiter [0] [2] 1 {| rule_seq := [0; 5; 1]; result := 5 |}).
    + reflexivity.
    + reflexivity.
    + constructor; [|constructor].
      exists {| rule_seq := [0; 1]; result := 3 |}, [1; 2].
      split; reflexivity.
    + reflexivity.
    + apply Exists_cons_tl, Exists_cons_hd. left. vm_compute. congruence.
  - eexists. vm_compute. reflexivity.
  - destruct (Htop [] (map (pair 0) (range 1 10)) 0 0
                {| iteration := 1;
                   entry := {| rule_seq := [0; 5; 1]; result := 5 |} |})
      as (Hout & Hfiles).
    + reflexivity.
    + vm_compute. reflexivity.
    + constructor.
    + vm_compute. reflexivity.
    + apply Exists_cons_tl, Exists_cons_hd. left. vm_compute. congruence.
    + split; [exact Hout|]. inversion Hfiles. reflexivity.
Defined.

(** C4 as stated does not hold: entry 1 of this log names rule 5 of a two
    rule grammar.  The run ends with [IndexError] after the picture of
    entry 0; entry 2 is selected and would build, and is never rendered. *)
Lemma entry_failure_counterexample :
  let run := Toy.run Toy.pandas_stable "iterations" Toy.log_with_bad_entry in
  run = ([(iteration_png 0,
           flip_rows (get_robot_image (G := Toy.grammar) (A := arith_binary64)
                        (S := Toy.sim64)
                        (Some [1; 2]) "FlatTerrainTask"%string))],
         Raise IndexError) /\
  In 2 (iterations_indices (len Toy.log_with_bad_entry)) /\
  make_robot_from_rule_sequence (G := Toy.grammar) [0; 0; 1] Toy.rules =
    Normal [1; 1; 2] /\
  ~ In (iteration_png 2) (map fst (written run)).
Proof.
  cbv zeta. split; [vm_compute; reflexivity|].
  split; [vm_compute; tauto|]. split; [reflexivity|].
  vm_compute. intros [H|[]]. discriminate.
Qed.

(** C5, as the code has it.  On a log without rows the modes
    [iterations], [iterations_top] and [percentiles] select nothing: the
    run writes no picture and ends normally, without an exception. *)
Theorem empty_log_writes_nothing
    {G : Grammar} {F : Type} {A : Arith F} {S : Simulator F Robot} {P : Pandas}
    (args : Args) (rules : list Rule) :
  args_type args = Some "iterations"%string \/
  args_type args = Some "iterations_top"%string \/
  args_type args = Some "percentiles"%string ->
  main args rules [] = ([], Normal tt).
Proof.
  intros [H|[H|H]].
  - rewrite (main_on_iterations _ _ _ H). reflexivity.
  - rewrite (main_on_iterations_top _ _ _ H). reflexivity.
  - rewrite (main_on_percentiles _ _ _ H). reflexivity.
Qed.

Lemma empty_log_writes_nothing_witness :
  (args_type (Toy.args "percentiles") = Some "iterations"%string \/
   args_type (Toy.args "percentiles") = Some "iterations_top"%string \/
   args_type (Toy.args "percentiles") = Some "percentiles"%string) /\
  Toy.run Toy.pandas_stable "percentiles" [] = ([], Normal tt).
Proof.
  assert (args_type (Toy.args "percentiles") = Some "iterations"%string \/
          args_type (Toy.args "percentiles") = Some "iterations_top"%string \/
          args_type (Toy.args "percentiles") = Some "percentiles"%string) as H
    by (right; right; reflexivity).
  split; [exact H|].
  exact (@empty_log_writes_nothing
           Toy.grammar _ arith_binary64 Toy.sim64 Toy.pandas_stable
           (Toy.args "percentiles") Toy.rules H).
Defined.

(** C5 as stated does not hold: on the empty log none of the three modes
    raises anything. *)
Lemma empty_log_counterexample :
  Toy.run Toy.pandas_stable "iterations" [] = ([], Normal tt) /\
  Toy.run Toy.pandas_stable "iterations_top" [] = ([], Normal tt) /\
  Toy.run Toy.pandas_stable "percentiles" [] = ([], Normal tt) /\
  ~ (exists e, outcome (Toy.run Toy.pandas_stable "iterations" []) = Raise e) /\
  ~ (exists e,
       outcome (Toy.run Toy.pandas_stable "iterations_top" []) = Raise e) /\
  ~ (exists e, outcome (Toy.run Toy.pandas_stable "percentiles" []) = Raise e).
Proof.
  split; [reflexivity|]. split; [reflexivity|]. split; [reflexivity|].
  split; [|split]; intros (e & He); discriminate.
Qed.

(** C6, as the code has it.  The [elif] chain of [main] has no [else]:
    with a [--type] that is none of the four modes, or without one, the run
    selects nothing, writes nothing and ends normally. *)
Theorem unknown_mode_writes_nothing
    {G : Grammar} {F : Type} {A : Arith F} {S : Simulator F Robot} {P : Pandas}
    (args : Args) (rules : list Rule) (iteration_df : DataFrame) :
  args_type args <> Some "iterations"%string ->
  args_type args <> Some "iterations_top"%string ->
  args_type args <> Some "percentiles"%string ->
  args_type args <> Some "terrain"%string ->
  main args rules iteration_df = ([], Normal tt).
Proof.
  intros H1 H2 H3 H4.
  assert (forall s, args_type args <> Some s -> type_is args s = false) as Hno.
  { intros s Hs. unfold type_is. destruct (args_type args) as [t|]; [|reflexivity].
    apply String.eqb_neq. congruence. }
  apply main_on_other; now apply Hno.
Qed.

Lemma unknown_mode_writes_nothing_witness :
  args_type (Toy.args "best") <> Some "iterations"%string /\
  Toy.run Toy.pandas_stable "best" (Toy.constant_log 5) = ([], Normal tt).
Proof.
  split; [discriminate|].
  apply (@unknown_mode_writes_nothing
           Toy.grammar _ arith_binary64 Toy.sim64 Toy.pandas_stable
           (Toy.args "best") Toy.rules (Toy.constant_log 5));
    discriminate.
Defined.

(** C6 as stated does not hold: [--type best] on a log of five rows ends
    normally, with no exception and no picture. *)
Lemma unknown_mode_counterexample :
  let run := Toy.run Toy.pandas_stable "best" (Toy.constant_log 5) in
  outcome run = Normal tt /\ written run = [] /\
  ~ (exists e, outcome run = Raise e).
Proof.
  cbv zeta. split; [reflexivity|]. split; [reflexivity|].
  intros (e & He). discriminate.
Qed.

(* ===================================================================== *)
(** * Camera framing *)
(* ===================================================================== *)

(** C7.  With a robot, the picture is taken with the camera at the
    translation of the robot's base link (rows 0 to 2 of column 3 of its
    transform), with yaw pi/3, pitch -pi/6 and distance twice the norm of
    [upper - lower] of its world bounding box; without one, from (1, 0, 0)
    with yaw -pi/3, pitch -pi/6 and distance 5.  Read over the reals the
    norm is the Euclidean length and the numbers are the stated ones, with
    distance 2 sqrt 3 for the unit box; in binary64 the angles are the
    nearest floats. *)
Theorem camera_frames_robot
    {G : Grammar} {F : Type} {A : Arith F} {S : Simulator F Robot}
    (task : @Task F Robot S) (robot : Robot) (l0 l1 l2 u0 u1 u2 : F) :
  get_robot_world_aabb task robot = ((l0, l1, l2), (u0, u1, u2)) ->
  let base_tf := get_link_transform task robot 0 in
  get_robot_image (Some robot) task =
    viewer_image task (Some robot)
      {| position := (base_tf 0 3, base_tf 1 3, base_tf 2 3);
         yaw := fdiv fpi (fconst 3);
         pitch := fdiv (fneg fpi) (fconst 6);
         distance :=
           fmul (fconst 2) (norm (fsub u0 l0, fsub u1 l1, fsub u2 l2)) |} /\
  get_robot_image None task =
    viewer_image task None
      {| position := (fconst 1, fconst 0, fconst 0);
         yaw := fdiv (fneg fpi) (fconst 3);
         pitch := fdiv (fneg fpi) (fconst 6);
         distance := fconst 5 |} /\
  (* over the reals *)
  (@fdiv R arith_real fpi (fconst 3) = PI / 3 /\
   @fdiv R arith_real (@fneg R arith_real fpi) (fconst 6) = - (PI / 6) /\
   @fdiv R arith_real (@fneg R arith_real fpi) (fconst 3) = - (PI / 3) /\
   (@fconst R arith_real 1, @fconst R arith_real 0, @fconst R arith_real 0)
     = (1, 0, 0) /\
   @fconst R arith_real 5 = 5 /\
   (forall a0 a1 a2 b0 b1 b2 : R,
      @fmul R arith_real (fconst 2)
        (@norm R arith_real
           (@fsub R arith_real b0 a0, @fsub R arith_real b1 a1,
            @fsub R arith_real b2 a2)) =
      2 * sqrt ((b0 - a0) * (b0 - a0) + (b1 - a1) * (b1 - a1)
                + (b2 - a2) * (b2 - a2))) /\
   @fmul R arith_real (fconst 2)
     (@norm R arith_real
        (@fsub R arith_real 1 0, @fsub R arith_real 1 0,
         @fsub R arith_real 1 0)) = 2 * sqrt 3)%R /\
  (* in binary64 *)
  (@fdiv _ arith_binary64 fpi (fconst 3) =
     S754_finite false 4716158501352293 (-52) /\
   @fdiv _ arith_binary64 (@fneg _ arith_binary64 fpi) (fconst 6) =
     S754_finite true 4716158501352293 (-53) /\
   @fdiv _ arith_binary64 (@fneg _ arith_binary64 fpi) (fconst 3) =
     S754_finite true 4716158501352293 (-52) /\
   @fconst _ arith_binary64 5 = S754_finite false 5629499534213120 (-50)).
Proof.
  intros Haabb base_tf. split; [|split; [reflexivity|split]].
  - unfold get_robot_image, camera_params. rewrite Haabb. reflexivity.
  - split; [reflexivity|]. split; [simpl; lra|]. split; [simpl; lra|].
    split; [reflexivity|]. split; [reflexivity|]. split; [reflexivity|].
    simpl. do 2 f_equal. lra.
  - repeat split; vm_compute; reflexivity.
Qed.

(** The toy simulator over the reals holds every robot in the unit box,
    with its base at (1/2, 1/2, 1/2). *)
Lemma camera_frames_robot_witness :
  get_robot_world_aabb (Simulator := Toy.sim_real) "FlatTerrainTask"%string
    [1; 2] = ((0, 0, 0), (1, 1, 1))%R /\
  Toy.camera
    (get_robot_image (G := Toy.grammar) (A := arith_real) (S := Toy.sim_real)
       (Some [1; 2]) "FlatTerrainTask"%string) =
  {| position := (1 / 2, 1 / 2, 1 / 2)%R;
     yaw := (PI / 3)%R;
     pitch := (- PI / 6)%R;
     distance := (2 * sqrt ((1 - 0) * (1 - 0) + (1 - 0) * (1 - 0)
                            + (1 - 0) * (1 - 0)))%R |}.
Proof.
  split; [reflexivity|].
  destruct (@camera_frames_robot Toy.grammar R arith_real Toy.sim_real
              "FlatTerrainTask"%string [1; 2] 0%R 0%R 0%R 1%R 1%R 1%R eq_refl)
    as (Himage & _).
  exact (f_equal Toy.camera Himage).
Defined.

(* ===================================================================== *)
(** * Block top-k mode *)
(* ===================================================================== *)

Lemma for_in_outcome_raise {W X : Type} (xs : list X)
    (body : X -> Script W unit) (e : exn) :
  (forall x, In x xs ->
     outcome (body x) = Normal tt \/ outcome (body x) = Raise e) ->
  (exists x, In x xs /\ outcome (body x) = Raise e) ->
  outcome (for_in xs body) = Raise e.
Proof.
  induction xs as [|x xs IH]; intros Hall (y & Hin & Hy); [contradiction|].
  cbn [for_in].
  destruct (Hall x (or_introl eq_refl)) as [Hx|Hx].
  - assert (outcome (for_in xs body) = Raise e) as Hrest.
    { apply IH.
      - intros z Hz. apply Hall. now right.
      - destruct Hin as [->|Hin]; [congruence|]. now exists y. }
    destruct (body x) as [w r]. simpl in Hx. subst r. simpl.
    destruct (for_in xs body) as [w' r']. exact Hrest.
  - destruct (body x) as [w r]. simpl in Hx. subst r. reflexivity.
Qed.

Lemma sorted_block_length {P : Pandas} (block : list IndexedRow) :
  sort_values_contract P ->
  len (sort_values false block) = len block.
Proof.
  intros HP. unfold len. f_equal. symmetry.
  apply Permutation_length, (sort_values_perm P HP).
Qed.

Section TopFacts.
Context {G : Grammar} {F : Type} {A : Arith F} {S : Simulator F Robot}
        {P : Pandas}.
Variable rules : list Rule.
Variable df : DataFrame.
Variable task : Task.
Hypothesis contract : sort_values_contract P.

Lemma top_one_raise (start_index i : Z) :
  len (block_at df start_index) <= i ->
  top_one rules df task start_index i = ([], Raise KeyError).
Proof.
  intros Hi. unfold top_one. rewrite ix_outside; [reflexivity|].
  now rewrite sorted_block_length.
Qed.

Lemma top_one_normal (start_index i : Z) :
  Forall (fun row => Forall (subscript_ok rules) (rule_seq row)) df ->
  0 <= start_index ->
  0 <= i < len (block_at df start_index) ->
  outcome (top_one rules df task start_index i) = Normal tt.
Proof.
  intros Hrows Hs Hi. unfold top_one.
  destruct (ix_position (sort_values false (block_at df start_index)) i)
    as (row & Hix & Hn); [now rewrite sorted_block_length|].
  rewrite Hix. apply nth_error_In in Hn.
  apply (Permutation_in _ (Permutation_sym
           (sort_values_perm P contract false _))) in Hn.
  apply block_at_in in Hn; [|exact Hs]. destruct Hn as (_ & _ & Hin).
  rewrite Forall_forall in Hrows. specialize (Hrows _ Hin).
  apply make_robot_normal_iff in Hrows. destruct Hrows as (robot & Hr).
  cbn [lift bind script_monad].
  now rewrite (render_to_normal _ _ _ _ _ Hr).
Qed.

Lemma block_loop_normal (start_index : Z) :
  Forall (fun row => Forall (subscript_ok rules) (rule_seq row)) df ->
  0 <= start_index ->
  10 <= len (block_at df start_index) ->
  outcome (for_in (range 0 10) (top_one rules df task start_index)) =
    Normal tt.
Proof.
  intros Hrows Hs Hlen. apply for_in_outcome_normal, Forall_forall.
  intros i Hi. apply in_range in Hi. apply top_one_normal; auto; lia.
Qed.

Lemma block_loop_raise (start_index : Z) :
  Forall (fun row => Forall (subscript_ok rules) (rule_seq row)) df ->
  0 <= start_index ->
  len (block_at df start_index) < 10 ->
  outcome (for_in (range 0 10) (top_one rules df task start_index)) =
    Raise KeyError.
Proof.
  intros Hrows Hs Hlen. apply for_in_outcome_raise.
  - intros i Hi. apply in_range in Hi.
    destruct (Z_lt_le_dec i (len (block_at df start_index))).
    + left. apply top_one_normal; auto; lia.
    + right. now rewrite top_one_raise.
  - exists (len (block_at df start_index)). split.
    + apply in_range. pose proof (len_nonneg (block_at df start_index)). lia.
    + rewrite top_one_raise; [reflexivity|lia].
Qed.

Lemma block_starts (start_index : Z) :
  In start_index (range_step 0 (len df) 1000) ->
  0 <= start_index < len df /\
  (len (block_at df start_index) = 1000 \/
   len (block_at df start_index) = len df mod 1000).
Proof.
  intros H. apply in_range_step in H; [|lia]. destruct H as (Hs & Hmod).
  split; [exact Hs|]. rewrite block_at_length by lia.
  apply Z.mod_divide in Hmod; [|lia]. destruct Hmod as (q & Hq).
  pose proof (Z.div_mod (len df) 1000 ltac:(lia)) as Hdm.
  pose proof (Z.mod_pos_bound (len df) 1000 ltac:(lia)) as Hb.
  lia.
Qed.
End TopFacts.


(** C10.  The loop over a sorted block reads its positions 0 to 9 whatever
    the block's length: reading a position at or past the length raises
    [KeyError].  So for a log whose rule sequences all build, the
    [iterations_top] run ends normally exactly when no block is shorter
    than ten rows, and when the length of the log modulo 1000 lies
    strictly between 0 and 10 the run ends with [KeyError], raised in the
    last, partial block. *)
Theorem top_block_needs_ten_rows
    {G : Grammar} {F : Type} {A : Arith F} {S : Simulator F Robot} {P : Pandas}
    (args : Args) (rules : list Rule) (iteration_df : DataFrame) :
  sort_values_contract P ->
  args_type args = Some "iterations_top"%string ->
  Forall (fun row => Forall (subscript_ok rules) (rule_seq row))
         iteration_df ->
  let n := len iteration_df in
  let task := task_class (args_task args) in
  (forall start_index i,
     len (block_at iteration_df start_index) <= i ->
     top_one rules iteration_df task start_index i = ([], Raise KeyError)) /\
  (0 < n mod 1000 < 10 ->
     outcome (main args rules iteration_df) = Raise KeyError /\
     len (block_at iteration_df (n - n mod 1000)) = n mod 1000 /\
     outcome (for_in (range 0 10)
                (top_one rules iteration_df task (n - n mod 1000))) =
       Raise KeyError) /\
  (outcome (main args rules iteration_df) = Normal tt <->
   ~ 0 < n mod 1000 < 10).
Proof.
  intros HP Htype Hrows n task.
  rewrite (main_on_iterations_top _ _ _ Htype), main_iterations_top_blocks.
  subst n. fold task. generalize task. clear task. intros task.
  pose proof (Z.div_mod (len iteration_df) 1000 ltac:(lia)) as Hdm.
  pose proof (Z.mod_pos_bound (len iteration_df) 1000 ltac:(lia)) as Hb.
  pose proof (len_nonneg iteration_df) as Hn.
  remember (len iteration_df mod 1000) as r eqn:Er.
  remember (len iteration_df / 1000) as q eqn:Eq.
  assert (0 < r < 10 ->
          outcome (for_in (range_step 0 (len iteration_df) 1000)
                     (fun start_index =>
                        for_in (range 0 10)
                          (top_one rules iteration_df task start_index))) =
            Raise KeyError /\
          len (block_at iteration_df (len iteration_df - r)) = r /\
          outcome (for_in (range 0 10)
                     (top_one rules iteration_df task
                        (len iteration_df - r))) =
            Raise KeyError) as Hshort.
  { intros Hr.
    assert (len (block_at iteration_df (len iteration_df - r)) = r) as Hl
      by (rewrite block_at_length; lia).
    assert (outcome (for_in (range 0 10)
                       (top_one rules iteration_df task
                          (len iteration_df - r))) =
            Raise KeyError) as Hlast
      by (apply block_loop_raise; auto; lia).
    split; [|split; [exact Hl|exact Hlast]].
    apply for_in_outcome_raise.
    - intros start_index Hin.
      destruct (block_starts iteration_df start_index Hin) as (Hs & [Hl'|Hl']).
      + left. apply block_loop_normal; auto; lia.
      + right. apply block_loop_raise; auto; lia.
    - exists (len iteration_df - r). split; [|exact Hlast].
      apply in_range_step; [lia|]. split; [lia|].
      replace (len iteration_df - r) with (q * 1000) by lia.
      apply Z.mod_mul. lia. }
  split; [|split; [exact Hshort|]].
  - intros start_index i Hi. now apply top_one_raise.
  - split.
    + intros Hok Hr. destruct (Hshort Hr) as (Hraise & _).
      rewrite Hraise in Hok. discriminate.
    + intros Hr. apply for_in_outcome_normal, Forall_forall.
      intros start_index Hin.
      destruct (block_starts iteration_df start_index Hin) as (Hs & [Hl|Hl]).
      * apply block_loop_normal; auto; lia.
      * apply block_loop_normal; auto; try lia. rewrite Hl.
        assert (len (block_at iteration_df start_index) > 0); [|lia].
        rewrite block_at_length by lia. lia.
Qed.

(** A log of 1003 rows: the first block is rendered, the second has three
    rows and the read of its position 3 ends the run. *)
Lemma top_block_needs_ten_rows_witness :
  let run := Toy.run Toy.pandas_stable "iterations_top"
                     (Toy.constant_log 1003) in
  0 < len (Toy.constant_log 1003) mod 1000 < 10 /\
  outcome run = Raise KeyError.
Proof.
  assert (0 < len (Toy.constant_log 1003) mod 1000 < 10) as H
    by (vm_compute; split; reflexivity).
  split; [exact H|].
  assert (Forall (fun row => Forall (subscript_ok Toy.rules) (rule_seq row))
                 (Toy.constant_log 1003)) as Hrows.
  { apply Forall_forall. intros row Hin. apply repeat_spec in Hin. subst row.
    repeat constructor; vm_compute; congruence. }
  destruct (@top_block_needs_ten_rows
              Toy.grammar _ arith_binary64 Toy.sim64 Toy.pandas_stable
              (Toy.args "iterations_top") Toy.rules (Toy.constant_log 1003)
              toy_stable_contract eq_refl Hrows)
    as (_ & Hshort & _).
  exact (proj1 (Hshort H)).
Defined.

(** The same run, evaluated: thirteen pictures are on disk when it ends. *)
Example top_block_short_run :
  let run := Toy.run Toy.pandas_stable "iterations_top"
                     (Toy.constant_log 1003) in
  outcome run = Raise KeyError /\
  map fst (written run) =
    map iteration_png [0; 1; 2; 3; 4; 5; 6; 7; 8; 9; 1000; 1001; 1002].
Proof. split; vm_compute; reflexivity. Qed.

(* ===================================================================== *)
(** * Further properties of the script *)
(* ===================================================================== *)

(** ** Runs in which every entry builds *)

Lemma for_in_outcome_cases {W X : Type} (xs : list X)
    (body : X -> Script W unit) (e : exn) :
  (forall x, In x xs ->
     outcome (body x) = Normal tt \/ outcome (body x) = Raise e) ->
  outcome (for_in xs body) = Normal tt \/ outcome (for_in xs body) = Raise e.
Proof.
  induction xs as [|x xs IH]; intros Hall; [now left|].
  cbn [for_in].
  destruct (Hall x (or_introl eq_refl)) as [Hx|Hx];
    destruct (body x) as [w r]; simpl in Hx; subst r; [|now right].
  simpl. destruct (for_in xs body) as [w' r'] eqn:E.
  apply IH. intros z Hz. apply Hall. now right.
Qed.

Lemma iterations_indices_rows (n i : Z) :
  In i (iterations_indices n) -> 0 <= i < n.
Proof.
  unfold iterations_indices. rewrite in_flat_map.
  intros (m & _ & Hi). apply window_spec in Hi. lia.
Qed.

Lemma percentile_indices_rows (n i : Z) :
  In i (percentile_indices n) -> 0 <= i < n.
Proof.
  unfold percentile_indices. rewrite in_flat_map.
  intros (m & _ & Hi). apply window_spec in Hi. lia.
Qed.

Section VisitRuns.
Context {G : Grammar} {F : Type} {A : Arith F} {S : Simulator F Robot}.
Variable name : Z -> Filename.
Variable rules : list Rule.
Variable df : DataFrame.
Variable task : Task.

Lemma visit_one_cases (index : Z) :
  0 <= index < len df ->
  outcome (visit_one name rules df task index) = Normal tt \/
  outcome (visit_one name rules df task index) = Raise IndexError.
Proof.
  intros Hi. destruct (loc_position df index Hi) as (row & Hl & _).
  destruct (make_robot_cases (rule_seq row) rules) as [(robot & Hr)|Hr].
  - left. now rewrite (visit_one_normal _ _ _ _ _ _ _ Hl Hr).
  - right. now rewrite (visit_one_raise _ _ _ _ _ _ _ Hl Hr).
Qed.

Lemma visit_cases (indices : list Z) :
  (forall i, In i indices -> 0 <= i < len df) ->
  outcome (visit name rules df task indices) = Normal tt \/
  outcome (visit name rules df task indices) = Raise IndexError.
Proof.
  intros H. apply for_in_outcome_cases.
  intros i Hi. apply visit_one_cases. now apply H.
Qed.

Lemma visit_all_build (indices : list Z) :
  (forall i, In i indices -> 0 <= i < len df) ->
  Forall (fun row => Forall (subscript_ok rules) (rule_seq row)) df ->
  outcome (visit name rules df task indices) = Normal tt /\
  map fst (written (visit name rules df task indices)) = map name indices.
Proof.
  intros Hrows Hok.
  assert (Forall (fun j => exists row robot,
                    loc df j = Normal row /\
                    make_robot_from_rule_sequence (rule_seq row) rules =
                      Normal robot) indices) as Hall.
  { apply Forall_forall. intros j Hj.
    destruct (loc_position df j (Hrows j Hj)) as (row & Hl & Hn).
    apply nth_error_In in Hn. rewrite Forall_forall in Hok.
    specialize (Hok row Hn). apply make_robot_normal_iff in Hok.
    destruct Hok as (robot & Hr). now exists row, robot. }
  destruct (visit_names name rules df task indices Hall) as (Hnormal & Hnames).
  unfold visit. rewrite (for_in_normal _ _ Hnormal).
  split; [reflexivity|exact Hnames].
Qed.
End VisitRuns.

(** When every rule index of every log row is one the rule list accepts,
    the [iterations] run ends normally and has written one picture per
    visited row, named [iteration_<row>.png], in the order of the visit. *)
Theorem iterations_run_writes_every_selected_row
    {G : Grammar} {F : Type} {A : Arith F} {S : Simulator F Robot} {P : Pandas}
    (args : Args) (rules : list Rule) (iteration_df : DataFrame) :
  args_type args = Some "iterations"%string ->
  Forall (fun row => Forall (subscript_ok rules) (rule_seq row))
         iteration_df ->
  outcome (main args rules iteration_df) = Normal tt /\
  map fst (written (main args rules iteration_df)) =
    map iteration_png (iterations_indices (len iteration_df)).
Proof.
  intros Htype Hok.
  rewrite (main_on_iterations _ _ _ Htype), main_iterations_visit.
  apply visit_all_build; [|exact Hok].
  intros i. apply iterations_indices_rows.
Qed.

Lemma iterations_run_writes_every_selected_row_witness :
  Forall (fun row => Forall (subscript_ok Toy.rules) (rule_seq row))
         (Toy.constant_log 1500) /\
  outcome (Toy.run Toy.pandas_stable "iterations" (Toy.constant_log 1500)) =
    Normal tt.
Proof.
  assert (Forall (fun row => Forall (subscript_ok Toy.rules) (rule_seq row))
                 (Toy.constant_log 1500)) as Hrows.
  { apply Forall_forall. intros row Hin. apply repeat_spec in Hin. subst row.
    repeat constructor; vm_compute; congruence. }
  split; [exact Hrows|].
  exact (proj1 (@iterations_run_writes_every_selected_row
                  Toy.grammar _ arith_binary64 Toy.sim64 Toy.pandas_stable
                  (Toy.args "iterations") Toy.rules (Toy.constant_log 1500)
                  eq_refl Hrows)).
Defined.

(** The same for the [percentiles] run, whose pictures are named
    [sorted_<row>.png]. *)
Theorem percentiles_run_writes_every_selected_row
    {G : Grammar} {F : Type} {A : Arith F} {S : Simulator F Robot} {P : Pandas}
    (args : Args) (rules : list Rule) (iteration_df : DataFrame) :
  args_type args = Some "percentiles"%string ->
  Forall (fun row => Forall (subscript_ok rules) (rule_seq row))
         iteration_df ->
  outcome (main args rules iteration_df) = Normal tt /\
  map fst (written (main args rules iteration_df)) =
    map sorted_png (percentile_indices (len iteration_df)).
Proof.
  intros Htype Hok.
  rewrite (main_on_percentiles _ _ _ Htype), main_percentiles_visit.
  apply visit_all_build; [|exact Hok].
  intros i. apply percentile_indices_rows.
Qed.

Lemma percentiles_run_writes_every_selected_row_witness :
  Forall (fun row => Forall (subscript_ok Toy.rules) (rule_seq row))
         (Toy.constant_log 40) /\
  outcome (Toy.run Toy.pandas_stable "percentiles" (Toy.constant_log 40)) =
    Normal tt.
Proof.
  assert (Forall (fun row => Forall (subscript_ok Toy.rules) (rule_seq row))
                 (Toy.constant_log 40)) as Hrows.
  { apply Forall_forall. intros row Hin. apply repeat_spec in Hin. subst row.
    repeat constructor; vm_compute; congruence. }
  split; [exact Hrows|].
  exact (proj1 (@percentiles_run_writes_every_selected_row
                  Toy.grammar _ arith_binary64 Toy.sim64 Toy.pandas_stable
                  (Toy.args "percentiles") Toy.rules (Toy.constant_log 40)
                  eq_refl Hrows)).
Defined.

(** ** Terrain mode *)

Lemma main_on_terrain
    {G : Grammar} {F : Type} {A : Arith F} {S : Simulator F Robot} {P : Pandas}
    (args : Args) (rules : list Rule) (df : DataFrame) :
  args_type args = Some "terrain"%string ->
  main args rules df = main_terrain args (task_class (args_task args)).
Proof.
  intros H. unfold main, type_is. rewrite H.
  change (String.eqb "terrain" "iterations") with false.
  change (String.eqb "terrain" "iterations_top") with false.
  change (String.eqb "terrain" "percentiles") with false.
  change (String.eqb "terrain" "terrain") with true.
  cbv iota. apply (script_bind_ret_l (fun _ => main_terrain _ _)).
Qed.

(** With [--type terrain] the run writes exactly one file,
    [terrain_<task>.png], and ends normally, whatever the log and the rule
    list hold (both may be empty): the picture is the flipped view of the
    task's scene without a robot, from (1, 0, 0) with yaw -pi/3, pitch
    -pi/6 and distance 5. *)
Theorem terrain_run_writes_one_picture
    {G : Grammar} {F : Type} {A : Arith F} {S : Simulator F Robot} {P : Pandas}
    (args : Args) (rules : list Rule) (iteration_df : DataFrame) :
  args_type args = Some "terrain"%string ->
  let task := task_class (args_task args) in
  main args rules iteration_df =
    ([(terrain_png (args_task args),
       flip_rows
         (viewer_image task None
            {| position := (fconst 1, fconst 0, fconst 0);
               yaw := fdiv (fneg fpi) (fconst 3);
               pitch := fdiv (fneg fpi) (fconst 6);
               distance := fconst 5 |}))],
     Normal tt) /\
  main args rules iteration_df = main args [] [].
Proof.
  intros Htype task. rewrite !(main_on_terrain _ _ _ Htype).
  split; reflexivity.
Qed.

Lemma terrain_run_writes_one_picture_witness :
  args_type (Toy.args "terrain") = Some "terrain"%string /\
  Toy.run Toy.pandas_stable "terrain" Toy.log_with_bad_entry =
  Toy.run Toy.pandas_stable "terrain" [].
Proof.
  split; [reflexivity|].
  destruct (@terrain_run_writes_one_picture
              Toy.grammar _ arith_binary64 Toy.sim64 Toy.pandas_stable
              (Toy.args "terrain") Toy.rules Toy.log_with_bad_entry eq_refl)
    as (H1 & _).
  destruct (@terrain_run_writes_one_picture
              Toy.grammar _ arith_binary64 Toy.sim64 Toy.pandas_stable
              (Toy.args "terrain") Toy.rules [] eq_refl)
    as (H2 & _).
  exact (eq_trans H1 (eq_sym H2)).
Defined.

(** ** What the percentile mode reads *)

Section SameSequences.
Context {G : Grammar} {F : Type} {A : Arith F} {S : Simulator F Robot}.

Lemma visit_one_same_sequences (name : Z -> Filename) (rules : list Rule)
    (df df' : DataFrame) (task : Task) (index : Z) :
  map rule_seq df = map rule_seq df' ->
  visit_one name rules df task index = visit_one name rules df' task index.
Proof.
  intros Hseq. unfold visit_one, loc.
  assert (len df = len df') as Hlen.
  { unfold len. f_equal.
    rewrite <- (length_map rule_seq df), Hseq. apply length_map. }
  rewrite Hlen.
  destruct ((index <? 0) || (len df' <=? index)); [reflexivity|].
  pose proof (nth_error_map rule_seq (Z.to_nat index) df) as H1.
  pose proof (nth_error_map rule_seq (Z.to_nat index) df') as H2.
  rewrite Hseq, H2 in H1.
  destruct (nth_error df (Z.to_nat index)) as [row|],
           (nth_error df' (Z.to_nat index)) as [row'|];
    simpl in H1; try discriminate; [|reflexivity].
  inversion H1 as [Hrow]. cbn [lift bind script_monad]. now rewrite Hrow.
Qed.

Lemma visit_same_sequences (name : Z -> Filename) (rules : list Rule)
    (df df' : DataFrame) (task : Task) (indices : list Z) :
  map rule_seq df = map rule_seq df' ->
  visit name rules df task indices = visit name rules df' task indices.
Proof.
  intros Hseq. unfold visit. apply for_in_ext.
  intros i _. now apply visit_one_same_sequences.
Qed.
End SameSequences.

(** The [percentiles] run does not read the scores: two logs with the same
    rule sequences, row for row, give the same files with the same
    contents, whatever their [result] columns and whatever the library's
    sort returns on line 108. *)
Theorem percentiles_run_ignores_scores
    {G : Grammar} {F : Type} {A : Arith F} {S : Simulator F Robot}
    (P P' : Pandas) (args : Args) (rules : list Rule) (df df' : DataFrame) :
  args_type args = Some "percentiles"%string ->
  map rule_seq df = map rule_seq df' ->
  @main G F A S P args rules df = @main G F A S P' args rules df'.
Proof.
  intros Htype Hseq.
  rewrite (@main_on_percentiles G F A S P _ _ _ Htype).
  rewrite (@main_on_percentiles G F A S P' _ _ _ Htype).
  rewrite !main_percentiles_visit.
  assert (len df = len df') as Hlen.
  { unfold len. f_equal.
    rewrite <- (length_map rule_seq df), Hseq. apply length_map. }
  rewrite Hlen. now apply visit_same_sequences.
Qed.

(** Two logs of three rows with opposite score orders. *)
Lemma percentiles_run_ignores_scores_witness :
  let up := [ {| rule_seq := [0; 1]; result := 1 |};
              {| rule_seq := [1]; result := 2 |};
              {| rule_seq := [0; 0; 1]; result := 3 |} ] in
  let down := [ {| rule_seq := [0; 1]; result := 3 |};
                {| rule_seq := [1]; result := 2 |};
                {| rule_seq := [0; 0; 1]; result := 1 |} ] in
  map rule_seq up = map rule_seq down /\
  Toy.run Toy.pandas_stable "percentiles" up =
  Toy.run Toy.pandas_unstable "percentiles" down.
Proof.
  cbv zeta. split; [reflexivity|].
  apply (@percentiles_run_ignores_scores
           Toy.grammar _ arith_binary64 Toy.sim64
           Toy.pandas_stable Toy.pandas_unstable (Toy.args "percentiles")
           Toy.rules); reflexivity.
Defined.

(** ** How many pictures, and under which names *)

Lemma window_length (c n : Z) : (List.length (window c n) <= 20)%nat.
Proof. unfold window. rewrite range_length. lia. Qed.

Lemma flat_map_length_bound {X Y : Type} (f : X -> list Y) (xs : list X)
    (b : nat) :
  (forall x, List.length (f x) <= b)%nat ->
  (List.length (flat_map f xs) <= b * List.length xs)%nat.
Proof.
  intros Hb. induction xs as [|x xs IH]; simpl; [lia|].
  rewrite length_app. specialize (Hb x). lia.
Qed.

Lemma for_in_written_bound {W X : Type} (xs : list X)
    (body : X -> Script W unit) :
  (forall x, List.length (written (body x)) <= 1)%nat ->
  (List.length (written (for_in xs body)) <= List.length xs)%nat.
Proof.
  intros Hone. induction xs as [|x xs IH]; [simpl; lia|].
  cbn [for_in]. specialize (Hone x).
  destruct (body x) as [w [[]|e]]; simpl in *; [|lia].
  destruct (for_in xs body) as [w' r']. simpl in *.
  rewrite length_app. lia.
Qed.

Lemma visit_one_writes_at_most_one
    {G : Grammar} {F : Type} {A : Arith F} {S : Simulator F Robot}
    (name : Z -> Filename) (rules : list Rule) (df : DataFrame)
    (task : Task) (index : Z) :
  (List.length (written (visit_one name rules df task index)) <= 1)%nat.
Proof.
  unfold visit_one. destruct (loc df index) as [row|e]; [|simpl; lia].
  cbn [lift bind script_monad]. unfold render_to.
  destruct (make_robot_from_rule_sequence (rule_seq row) rules);
    simpl; lia.
Qed.

(** The [percentiles] run writes at most 220 pictures, however long the
    log is and however the run ends: eleven centres, at most twenty rows
    around each. *)
Theorem percentiles_run_writes_at_most_220
    {G : Grammar} {F : Type} {A : Arith F} {S : Simulator F Robot} {P : Pandas}
    (args : Args) (rules : list Rule) (iteration_df : DataFrame) :
  args_type args = Some "percentiles"%string ->
  (List.length (percentile_centres (len iteration_df)) = 11)%nat /\
  (forall c, List.length (window c (len iteration_df)) <= 20)%nat /\
  (List.length (written (main args rules iteration_df)) <= 220)%nat.
Proof.
  intros Htype. split; [reflexivity|]. split; [intros c; apply window_length|].
  rewrite (main_on_percentiles _ _ _ Htype), main_percentiles_visit.
  unfold visit.
  pose proof (for_in_written_bound (percentile_indices (len iteration_df))
                (visit_one sorted_png rules iteration_df
                   (task_class (args_task args)))
                (visit_one_writes_at_most_one _ _ _ _)) as Hw.
  pose proof (flat_map_length_bound
                (fun c => window c (len iteration_df))
                (percentile_centres (len iteration_df)) 20
                (fun c => window_length c _)) as Hi.
  change (flat_map (fun c => window c (len iteration_df))
            (percentile_centres (len iteration_df)))
    with (percentile_indices (len iteration_df)) in Hi.
  assert (List.length (percentile_centres (len iteration_df)) = 11%nat) as H11
    by reflexivity.
  lia.
Qed.

Lemma percentiles_run_writes_at_most_220_witness :
  args_type (Toy.args "percentiles") = Some "percentiles"%string /\
  (List.length (written (Toy.run Toy.pandas_stable "percentiles"
                           (Toy.constant_log 3000))) <= 220)%nat.
Proof.
  split; [reflexivity|].
  exact (proj2 (proj2 (@percentiles_run_writes_at_most_220
                  Toy.grammar _ arith_binary64 Toy.sim64 Toy.pandas_stable
                  (Toy.args "percentiles") Toy.rules (Toy.constant_log 3000)
                  eq_refl))).
Defined.

Lemma range_increasing (lo hi : Z) : StronglySorted Z.lt (range lo hi).
Proof.
  remember (Z.to_nat (hi - lo)) as k eqn:Hk. revert lo Hk.
  induction k as [|k IH]; intros lo Hk.
  - rewrite range_empty by lia. constructor.
  - rewrite range_first by lia. constructor; [apply IH; lia|].
    apply Forall_forall. intros i Hi. apply in_range in Hi. lia.
Qed.

Lemma sorted_append {X : Type} (R : X -> X -> Prop) (l1 l2 : list X) :
  StronglySorted R l1 -> StronglySorted R l2 ->
  (forall x y, In x l1 -> In y l2 -> R x y) ->
  StronglySorted R (l1 ++ l2).
Proof.
  intros H1 H2 H12. induction H1 as [|a l1 Hs IH Ha]; [exact H2|].
  simpl. constructor.
  - apply IH. intros x y Hx Hy. apply H12; [now right|exact Hy].
  - apply Forall_app. split; [exact Ha|].
    apply Forall_forall. intros y Hy. apply H12; [now left|exact Hy].
Qed.

Lemma sorted_nodup (l : list Z) : StronglySorted Z.lt l -> NoDup l.
Proof.
  induction 1 as [|a l Hs IH Ha]; constructor; [|exact IH].
  intros Hin. rewrite Forall_forall in Ha. specialize (Ha a Hin). lia.
Qed.

Lemma multiples_spaced (step : Z) (k s : nat) :
  0 < step ->
  StronglySorted (fun a b => a + step <= b)
    (map (fun j => 0 + Z.of_nat j * step) (seq s k)).
Proof.
  intros Hstep. revert s. induction k as [|k IH]; intros s; simpl.
  - constructor.
  - constructor; [apply IH|]. apply Forall_forall. intros b Hb.
    apply in_map_iff in Hb. destruct Hb as (j & <- & Hj).
    apply in_seq in Hj. nia.
Qed.

Lemma windows_increasing (n : Z) (mids : list Z) :
  StronglySorted (fun a b => a + 1000 <= b) mids ->
  StronglySorted Z.lt (flat_map (fun m => window m n) mids).
Proof.
  induction 1 as [|m mids Hs IH Hm]; simpl; [constructor|].
  apply sorted_append; [apply range_increasing|exact IH|].
  intros x y Hx Hy. apply window_spec in Hx.
  apply in_flat_map in Hy. destruct Hy as (m' & Hm' & Hy).
  apply window_spec in Hy. rewrite Forall_forall in Hm.
  specialize (Hm m' Hm'). lia.
Qed.

(** In the [iterations] mode the visited row labels are strictly
    increasing, so no label is visited twice and no picture of the run is
    overwritten by a later one; there are at most twenty labels for each
    of the [n / 1000 + 1] multiples of 1000 up to the log length [n]. *)
Theorem iterations_labels_strictly_increase (iteration_df : DataFrame) :
  let n := len iteration_df in
  StronglySorted Z.lt (iterations_indices n) /\
  NoDup (map iteration_png (iterations_indices n)) /\
  (List.length (iterations_indices n) <= 20 * Z.to_nat (n / 1000 + 1))%nat.
Proof.
  intros n.
  assert (StronglySorted Z.lt (iterations_indices n)) as Hs.
  { unfold iterations_indices, range_step.
    apply windows_increasing, multiples_spaced. lia. }
  split; [exact Hs|]. split.
  - apply sorted_nodup in Hs. clear -Hs.
    induction Hs as [|i l Hi _ IH]; simpl; constructor; [|exact IH].
    rewrite in_map_iff. intros (j & Hj & Hin). inversion Hj; subst j.
    contradiction.
  - unfold iterations_indices.
    pose proof (flat_map_length_bound (fun m => window m n)
                  (range_step 0 (n + 1) 1000) 20
                  (fun m => window_length m n)) as Hb.
    assert (List.length (range_step 0 (n + 1) 1000) = Z.to_nat (n / 1000 + 1))
      as Hlen.
    { unfold range_step. rewrite length_map, length_seq. f_equal.
      replace (n + 1 - 0 + 1000 - 1) with (n + 1 * 1000) by lia.
      rewrite Z.div_add by lia. reflexivity. }
    rewrite Hlen in Hb. exact Hb.
Qed.

(** ** Block top-k runs in which every block has ten rows *)

Lemma map_fst_combine_short {X Y : Type} (l1 : list X) (l2 : list Y) :
  (List.length l1 <= List.length l2)%nat -> map fst (combine l1 l2) = l1.
Proof.
  revert l2. induction l1 as [|x l1 IH]; intros [|y l2] H; simpl in *;
    try reflexivity; try lia.
  f_equal. apply IH. lia.
Qed.

Lemma block_at_labels (df : DataFrame) (start_index : Z) :
  0 <= start_index <= len df ->
  map iteration (block_at df start_index) =
  range start_index (Z.min (start_index + 1000) (len df)).
Proof.
  intros H. unfold block_at, slice_rows. rewrite map_map. simpl.
  apply map_fst_combine_short.
  unfold slice. rewrite range_length, length_firstn, length_skipn.
  unfold len in *. lia.
Qed.

Section TopRuns.
Context {G : Grammar} {F : Type} {A : Arith F} {S : Simulator F Robot}
        {P : Pandas}.
Variable rules : list Rule.
Variable df : DataFrame.
Variable task : Task.
Hypothesis contract : sort_values_contract P.
Hypothesis rows_build :
  Forall (fun row => Forall (subscript_ok rules) (rule_seq row)) df.

Lemma top_rows_in_block (start_index : Z) (row : IndexedRow) :
  0 <= start_index ->
  In row (firstn 10 (sort_values false (block_at df start_index))) ->
  start_index <= iteration row < start_index + 1000 /\
  loc df (iteration row) = Normal (entry row) /\ In (entry row) df.
Proof.
  intros Hs Hin.
  assert (In row (sort_values false (block_at df start_index))) as Hin'
    by (rewrite <- (firstn_skipn 10); apply in_or_app; now left).
  apply (Permutation_in _ (Permutation_sym
           (sort_values_perm P contract false _))) in Hin'.
  now apply block_at_in.
Qed.

Lemma top_rows_distinct (start_index : Z) :
  0 <= start_index <= len df ->
  NoDup (map iteration
           (firstn 10 (sort_values false (block_at df start_index)))).
Proof.
  intros Hs.
  assert (NoDup (map iteration (sort_values false (block_at df start_index))))
    as Hnd.
  { apply (Permutation_NoDup
             (Permutation_map iteration
                (sort_values_perm P contract false _))).
    rewrite block_at_labels by exact Hs.
    apply sorted_nodup, range_increasing. }
  rewrite <- (firstn_skipn 10 (sort_values false _)), map_app in Hnd.
  exact (NoDup_app_remove_r _ _ Hnd).
Qed.

Lemma render_rows_run (rows : list IndexedRow) :
  (forall row, In row rows -> In (entry row) df) ->
  exists files,
    for_in rows (fun row =>
      render_to (iteration_png (iteration row)) (rule_seq (entry row))
                rules task) = (files, Normal tt) /\
    map fst files = map (fun row => iteration_png (iteration row)) rows.
Proof.
  induction rows as [|row rows IH]; intros Hin.
  - exists []. split; reflexivity.
  - destruct IH as (files & Hrun & Hnames);
      [intros r Hr; apply Hin; now right|].
    pose proof (Hin row (or_introl eq_refl)) as Hrow.
    rewrite Forall_forall in rows_build.
    pose proof (proj2 (make_robot_normal_iff _ _) (rows_build _ Hrow))
      as (robot & Hr).
    exists ((iteration_png (iteration row),
             flip_rows (get_robot_image (Some robot) task)) :: files).
    cbn [for_in]. rewrite Hrun, (render_to_normal _ _ _ _ _ Hr).
    split; [reflexivity|]. simpl. now rewrite Hnames.
Qed.

Lemma block_run (start_index : Z) :
  0 <= start_index ->
  10 <= len (block_at df start_index) ->
  exists files,
    for_in (range 0 10) (top_one rules df task start_index) =
      (files, Normal tt) /\
    map fst files =
      map (fun row => iteration_png (iteration row))
          (firstn 10 (sort_values false (block_at df start_index))).
Proof.
  intros Hs Hlen. unfold top_one.
  rewrite for_in_top by (rewrite sorted_block_length; [lia|exact contract]).
  apply render_rows_run. intros row Hin.
  now apply (top_rows_in_block start_index).
Qed.

Lemma blocks_run (starts : list Z) :
  (forall s, In s starts -> 0 <= s /\ 10 <= len (block_at df s)) ->
  exists files,
    for_in starts (fun start_index =>
      for_in (range 0 10) (top_one rules df task start_index)) =
      (files, Normal tt) /\
    map fst files =
      flat_map (fun start_index =>
                  map (fun row => iteration_png (iteration row))
                      (firstn 10 (sort_values false
                                    (block_at df start_index))))
               starts.
Proof.
  induction starts as [|s starts IH]; intros Hall.
  - exists []. split; reflexivity.
  - destruct IH as (files & Hrun & Hnames);
      [intros s' Hs'; apply Hall; now right|].
    destruct (Hall s (or_introl eq_refl)) as (Hs & Hlen).
    destruct (block_run s Hs Hlen) as (files0 & Hrun0 & Hnames0).
    exists (files0 ++ files). cbn [for_in flat_map].
    rewrite Hrun0, Hrun. split; [reflexivity|].
    unfold File in *. now rewrite map_app, Hnames0, Hnames.
Qed.

Lemma blocks_names_distinct (starts : list Z) :
  StronglySorted (fun a b => a + 1000 <= b) starts ->
  (forall s, In s starts -> 0 <= s <= len df) ->
  NoDup (flat_map (fun start_index =>
                     map (fun row => iteration_png (iteration row))
                         (firstn 10 (sort_values false
                                       (block_at df start_index))))
                  starts).
Proof.
  induction 1 as [|s starts Hs IH Hgap]; intros Hall; [constructor|].
  cbn [flat_map]. apply NoDup_app.
  - rewrite <- (map_map iteration iteration_png).
    pose proof (top_rows_distinct s (Hall s (or_introl eq_refl))) as Hnd.
    clear -Hnd. induction Hnd as [|i l Hi _ IHl]; simpl; constructor;
      [|exact IHl].
    rewrite in_map_iff. intros (j & Hj & Hin). inversion Hj; subst j.
    contradiction.
  - apply IH. intros s' Hs'. apply Hall. now right.
  - intros name Hin Hin'.
    apply in_map_iff in Hin. destruct Hin as (row & <- & Hrow).
    apply in_flat_map in Hin'. destruct Hin' as (s' & Hs' & Hin').
    apply in_map_iff in Hin'. destruct Hin' as (row' & Heq & Hrow').
    inversion Heq as [Hlabel].
    apply top_rows_in_block in Hrow;
      [|apply (Hall s (or_introl eq_refl))].
    apply top_rows_in_block in Hrow';
      [|apply (Hall s' (or_intror Hs'))].
    rewrite Forall_forall in Hgap. specialize (Hgap s' Hs'). lia.
Qed.
End TopRuns.

(** When every rule sequence of the log builds and no block is shorter
    than ten rows (the log length modulo 1000 is 0 or at least 10), the
    [iterations_top] run ends normally.  It has then written, block after
    block, ten pictures named after the labels of the first ten rows of
    the sorted block: ten times the number of blocks in all, under names
    that are pairwise different, so that no picture replaces another. *)
Theorem top_run_writes_ten_per_block
    {G : Grammar} {F : Type} {A : Arith F} {S : Simulator F Robot} {P : Pandas}
    (args : Args) (rules : list Rule) (iteration_df : DataFrame) :
  sort_values_contract P ->
  args_type args = Some "iterations_top"%string ->
  Forall (fun row => Forall (subscript_ok rules) (rule_seq row))
         iteration_df ->
  ~ 0 < len iteration_df mod 1000 < 10 ->
  let run := main args rules iteration_df in
  let starts := range_step 0 (len iteration_df) 1000 in
  outcome run = Normal tt /\
  map fst (written run) =
    flat_map (fun start_index =>
                map (fun row => iteration_png (iteration row))
                    (firstn 10 (sort_values false
                                  (block_at iteration_df start_index))))
             starts /\
  List.length (written run) = (10 * List.length starts)%nat /\
  List.length starts = Z.to_nat ((len iteration_df + 999) / 1000) /\
  NoDup (map fst (written run)).
Proof.
  intros HP Htype Hrows Hlong run starts. subst run.
  rewrite (main_on_iterations_top _ _ _ Htype), main_iterations_top_blocks.
  fold starts.
  pose proof (Z.mod_pos_bound (len iteration_df) 1000 ltac:(lia)) as Hb.
  assert (forall s, In s starts ->
            0 <= s /\ 10 <= len (block_at iteration_df s)) as Hall.
  { intros s Hs.
    destruct (block_starts iteration_df s Hs) as (Hs' & [Hl|Hl]); [lia|].
    assert (0 < len (block_at iteration_df s))
      by (rewrite block_at_length; lia).
    lia. }
  destruct (blocks_run rules iteration_df (task_class (args_task args))
              HP Hrows starts Hall) as (files & Hrun & Hnames).
  rewrite Hrun. simpl.
  assert (NoDup (map fst files)) as Hnd.
  { rewrite Hnames. apply blocks_names_distinct; [exact HP| |].
    - apply multiples_spaced. lia.
    - intros s Hs. destruct (block_starts iteration_df s Hs). lia. }
  assert (List.length (map fst files) = (10 * List.length starts)%nat)
    as Hcount.
  { rewrite Hnames. clear -Hall HP.
    induction starts as [|s starts IH]; [reflexivity|].
    cbn [flat_map]. rewrite length_app, length_map, length_firstn.
    rewrite IH by (intros s' Hs'; apply Hall; now right).
    destruct (Hall s (or_introl eq_refl)) as (_ & Hlen).
    rewrite <- (sorted_block_length _ HP) in Hlen. unfold len in Hlen.
    simpl List.length. lia. }
  rewrite length_map in Hcount.
  split; [reflexivity|]. split; [exact Hnames|].
  split; [exact Hcount|]. split; [|exact Hnd].
  unfold starts, range_step. rewrite length_map, length_seq. f_equal.
  f_equal. lia.
Qed.

Lemma top_run_writes_ten_per_block_witness :
  ~ 0 < len (Toy.constant_log 1010) mod 1000 < 10 /\
  outcome (Toy.run Toy.pandas_stable "iterations_top"
             (Toy.constant_log 1010)) = Normal tt /\
  List.length (written (Toy.run Toy.pandas_stable "iterations_top"
                          (Toy.constant_log 1010))) = 20%nat.
Proof.
  assert (~ 0 < len (Toy.constant_log 1010) mod 1000 < 10) as H
    by (vm_compute; intros [_ Hlt]; discriminate).
  split; [exact H|].
  assert (Forall (fun row => Forall (subscript_ok Toy.rules) (rule_seq row))
                 (Toy.constant_log 1010)) as Hrows.
  { apply Forall_forall. intros row Hin. apply repeat_spec in Hin. subst row.
    repeat constructor; vm_compute; congruence. }
  destruct (@top_run_writes_ten_per_block
              Toy.grammar _ arith_binary64 Toy.sim64 Toy.pandas_stable
              (Toy.args "iterations_top") Toy.rules (Toy.constant_log 1010)
              toy_stable_contract eq_refl Hrows H)
    as (Hok & _ & Hlen & Hstarts & _).
  split; [exact Hok|].
  refine (eq_trans Hlen
            (eq_trans (f_equal (fun k => (10 * k)%nat) Hstarts) _)).
  vm_compute. reflexivity.
Defined.

(** ** More on rule sequences *)

Lemma getitem_wraps {X : Type} (l : list X) (r : Z) :
  subscript_ok l r -> getitem l r = getitem l (r mod len l).
Proof.
  unfold subscript_ok. intros Hr. destruct (Z_lt_le_dec r 0) as [Hneg|Hpos].
  - assert (r mod len l = len l + r) as Hmod.
    { rewrite <- (Z.mod_add r 1 (len l)) by lia.
      rewrite Z.mod_small by lia. lia. }
    rewrite Hmod.
    destruct (getitem_from_end l r) as (a & Ha & Hn); [lia|].
    destruct (getitem_position l (len l + r)) as (a' & Ha' & Hn'); [lia|].
    congruence.
  - now rewrite Z.mod_small by lia.
Qed.

Section SequenceFacts.
Context {G : Grammar}.

Lemma rewrite_step_wraps (rules : list Rule) (g : Graph) (r : Z) :
  subscript_ok rules r ->
  rewrite_step rules g r = rewrite_step rules g (r mod len rules).
Proof.
  intros Hr. unfold rewrite_step. now rewrite <- (getitem_wraps rules r Hr).
Qed.

Lemma loop_wraps (rules : list Rule) (rs : list Z) (g : Graph) :
  Forall (subscript_ok rules) rs ->
  for_fold rs (rewrite_step rules) g =
  for_fold (map (fun r => r mod len rules) rs) (rewrite_step rules) g.
Proof.
  intros H. revert g. induction H as [|r rs Hr _ IH]; intros g; [reflexivity|].
  cbn [for_fold map]. rewrite <- (rewrite_step_wraps rules g r Hr).
  destruct (rewrite_step rules g r) as [g'|e]; [|reflexivity].
  simpl. apply IH.
Qed.

Lemma loop_append (rules : list Rule) (rs1 rs2 : list Z) (g : Graph) :
  for_fold (rs1 ++ rs2) (rewrite_step rules) g =
  (g' <- for_fold rs1 (rewrite_step rules) g ;;
   for_fold rs2 (rewrite_step rules) g').
Proof.
  revert g. induction rs1 as [|r rs1 IH]; intros g; [reflexivity|].
  cbn [for_fold app]. destruct (rewrite_step rules g r) as [g'|e];
    [|reflexivity].
  simpl. apply IH.
Qed.
End SequenceFacts.

(** A rule sequence whose indices the rule list accepts builds the same
    robot as the sequence of those indices reduced modulo the number of
    rules: [-1] stands for the last rule, [-L] for the first. *)
Theorem rule_indices_count_modulo_length {G : Grammar}
    (rule_sequence : list Z) (rules : list Rule) :
  Forall (subscript_ok rules) rule_sequence ->
  make_robot_from_rule_sequence rule_sequence rules =
  make_robot_from_rule_sequence
    (map (fun r => r mod len rules) rule_sequence) rules /\
  Forall (fun r => 0 <= r < len rules)
         (map (fun r => r mod len rules) rule_sequence).
Proof.
  intros H. split.
  - rewrite !make_robot_unfold. now rewrite (loop_wraps rules _ _ H).
  - apply Forall_forall. intros r' Hr'. apply in_map_iff in Hr'.
    destruct Hr' as (r & <- & Hr). rewrite Forall_forall in H.
    specialize (H r Hr). unfold subscript_ok in H.
    apply Z.mod_pos_bound. lia.
Qed.

Lemma rule_indices_count_modulo_length_witness :
  Forall (subscript_ok Toy.rules) [0; -2; -1] /\
  make_robot_from_rule_sequence (G := Toy.grammar) [0; -2; -1] Toy.rules =
  make_robot_from_rule_sequence (G := Toy.grammar) [0; 0; 1] Toy.rules.
Proof.
  assert (Forall (subscript_ok Toy.rules) [0; -2; -1]) as H
    by (repeat constructor; vm_compute; congruence).
  split; [exact H|].
  exact (proj1 (@rule_indices_count_modulo_length Toy.grammar
                  [0; -2; -1] Toy.rules H)).
Defined.

(** An index whose rule finds no match in the graph reached so far can be
    dropped from the sequence: the robot built, or the exception raised
    by a later index, is the same with and without it. *)
Theorem unmatched_rule_can_be_dropped {G : Grammar}
    (rules : list Rule) (before after : list Z) (r : Z)
    (rule : Rule) (graph : Graph) :
  for_fold before (rewrite_step rules) make_initial_graph = Normal graph ->
  getitem rules r = Normal rule ->
  find_matches (lhs rule) graph = [] ->
  make_robot_from_rule_sequence (before ++ r :: after) rules =
  make_robot_from_rule_sequence (before ++ after) rules.
Proof.
  intros Hbefore Hrule Hnone.
  rewrite !make_robot_unfold, !loop_append, Hbefore.
  cbn [bind completion_monad for_fold].
  rewrite (rewrite_step_ok rules graph r rule Hrule), Hnone. reflexivity.
Qed.

(** Once the toy word is closed, rule 0 has nothing to rewrite. *)
Lemma unmatched_rule_can_be_dropped_witness :
  for_fold (M := completion) [0; 1]
           (rewrite_step (G := Toy.grammar) Toy.rules) [0] = Normal [1; 2] /\
  make_robot_from_rule_sequence (G := Toy.grammar) ([0; 1] ++ 0 :: [1])
    Toy.rules =
  make_robot_from_rule_sequence (G := Toy.grammar) ([0; 1] ++ [1]) Toy.rules.
Proof.
  split; [reflexivity|].
  apply (@unmatched_rule_can_be_dropped Toy.grammar Toy.rules [0; 1] [1] 0
           {| Toy.rule_lhs := [0]; Toy.rule_rhs := [1; 0] |} [1; 2]);
    reflexivity.
Defined.

(** ** More on the windowed and percentile runs *)

(** An entry of the [percentiles] run whose rule sequence holds an index
    the rule list rejects ends the run with [IndexError] the first time it
    is visited: the pictures of the visits before it are on disk, under
    their [sorted_] names, and nothing is written for it or after it. *)
Theorem percentiles_entry_failure_ends_run
    {G : Grammar} {F : Type} {A : Arith F} {S : Simulator F Robot} {P : Pandas}
    (args : Args) (rules : list Rule) (iteration_df : DataFrame)
    (earlier later : list Z) (index : Z) (row : Row) :
  args_type args = Some "percentiles"%string ->
  percentile_indices (len iteration_df) = earlier ++ index :: later ->
  Forall (fun j => exists row' robot,
            loc iteration_df j = Normal row' /\
            make_robot_from_rule_sequence (rule_seq row') rules = Normal robot)
         earlier ->
  loc iteration_df index = Normal row ->
  Exists (fun r => len rules <= r \/ r < - len rules) (rule_seq row) ->
  outcome (main args rules iteration_df) = Raise IndexError /\
  map fst (written (main args rules iteration_df)) = map sorted_png earlier.
Proof.
  intros Htype Hsel Hearlier Hloc Hbad.
  rewrite (main_on_percentiles _ _ _ Htype), main_percentiles_visit.
  unfold visit. rewrite Hsel.
  apply make_robot_raise_iff in Hbad.
  pose proof (visit_one_raise sorted_png rules iteration_df
                (task_class (args_task args)) index row IndexError Hloc Hbad)
    as Hone.
  destruct (visit_names sorted_png rules iteration_df
              (task_class (args_task args)) earlier Hearlier) as (Hok & Hnames).
  rewrite (for_in_raise earlier later index _ IndexError Hok)
    by (now rewrite Hone).
  rewrite Hone. simpl. rewrite app_nil_r. split; [reflexivity|exact Hnames].
Qed.

(** On the log with the bad entry 1, the first window is rows 0, 1, 2. *)
Lemma percentiles_entry_failure_ends_run_witness :
  let run := Toy.run Toy.pandas_stable "percentiles" Toy.log_with_bad_entry in
  (exists later,
     percentile_indices (len Toy.log_with_bad_entry) = [0] ++ 1 :: later) /\
  outcome run = Raise IndexError /\
  map fst (written run) = map sorted_png [0].
Proof.
  split; [eexists; vm_compute; reflexivity|].
  eapply (@percentiles_entry_failure_ends_run
           Toy.grammar _ arith_binary64 Toy.sim64 Toy.pandas_stable
           (Toy.args "percentiles") Toy.rules Toy.log_with_bad_entry
           [0] _ 1 {| rule_seq := [0; 5; 1]; result := 5 |}).
  - reflexivity.
  - vm_compute. reflexivity.
  - constructor; [|constructor].
    exists {| rule_seq := [0; 1]; result := 3 |}, [1; 2].
    split; reflexivity.
  - reflexivity.
  - apply Exists_cons_tl, Exists_cons_hd. left. vm_compute. congruence.
Defined.

(** A log of fewer than 1000 rows has the single check point 0: the
    [iterations] run visits its first ten rows (all of them when there are
    fewer) and no other row. *)
Theorem short_log_shows_first_ten_rows
    {G : Grammar} {F : Type} {A : Arith F} {S : Simulator F Robot} {P : Pandas}
    (args : Args) (rules : list Rule) (iteration_df : DataFrame) :
  args_type args = Some "iterations"%string ->
  len iteration_df < 1000 ->
  iterations_indices (len iteration_df) =
    range 0 (Z.min 10 (len iteration_df)) /\
  main args rules iteration_df =
    visit iteration_png rules iteration_df (task_class (args_task args))
          (range 0 (Z.min 10 (len iteration_df))).
Proof.
  intros Htype Hshort.
  pose proof (len_nonneg iteration_df) as Hn.
  assert (iterations_indices (len iteration_df) =
          range 0 (Z.min 10 (len iteration_df))) as Hsel.
  { unfold iterations_indices, range_step.
    replace ((len iteration_df + 1 - 0 + 1000 - 1) / 1000) with 1.
    - simpl. rewrite app_nil_r. unfold window. f_equal.
    - apply Z.div_unique with (r := len iteration_df); lia. }
  split; [exact Hsel|].
  rewrite (main_on_iterations _ _ _ Htype), main_iterations_visit.
  now rewrite Hsel.
Qed.

Lemma short_log_shows_first_ten_rows_witness :
  len (Toy.constant_log 500) < 1000 /\
  iterations_indices (len (Toy.constant_log 500)) = range 0 10.
Proof.
  assert (len (Toy.constant_log 500) < 1000) as H by (vm_compute; reflexivity).
  split; [exact H|].
  exact (proj1 (@short_log_shows_first_ten_rows
                  Toy.grammar _ arith_binary64 Toy.sim64 Toy.pandas_stable
                  (Toy.args "iterations") Toy.rules (Toy.constant_log 500)
                  eq_refl H)).
Defined.

(* ===================================================================== *)
(** * Block top-k mode under a stable sort *)
(* ===================================================================== *)








